(** * Credential_Checker: a shallow embedding of [credential_checker.py]

    The development models the [CredentialChecker] class: the six probe
    methods ([check_postgres] ... [check_redis]), the dispatcher
    [check_database], the sweep [run_checks], the constructor with
    [_load_config], and [main].

    Python values loaded from YAML are an inductive type; exceptions are an
    explicit result type; the object attribute [self.results], the outside
    world (network, file system) and two event logs are threaded through a
    small state-and-exception monad.  Logging calls ([logger.info] and the
    like) write to the log stream only and are left out. *)

From Stdlib Require Import String Ascii List ZArith Bool Lia.
Import ListNotations.
Local Open Scope string_scope.
Local Open Scope list_scope.
Set Warnings "-register-all".

(** ** Python values *)

(** What [yaml.safe_load] builds for the documents the program reads:
    [None], booleans, integers, strings, lists and dicts.  A [VDict] lists
    the items of a dict in insertion order; its keys are strings (the
    program looks up string keys only) and are pairwise different, so the
    first entry found for a key is the entry of the dict.  A string holds
    the UTF-8 encoding of a Python [str]: a character (code point) is one
    byte that is not a continuation byte, followed by its continuation
    bytes. *)
Inductive value : Type :=
| VNone
| VBool (b : bool)
| VInt (z : Z)
| VStr (s : string)
| VList (l : list value)
| VDict (d : list (string * value)).

(** Exceptions.  [ClientError] stands for whatever a database client
    library raises on a failed attempt; all of these derive from
    [Exception].  [SystemExit] derives from [BaseException] only. *)
Inductive failure : Type :=
| ConnectionRefused
| HostUnreachable
| HandshakeFailure
| CredentialRejected
| ProtocolError
| TimeoutExpired.

Inductive exn : Type :=
| KeyError (key : string)
| TypeError
| ClientError (f : failure)
| OSError
| YAMLError
| SystemExit (code : Z).

(** [isinstance(e, Exception)]: what an [except Exception] clause catches. *)
Definition is_Exception (e : exn) : bool :=
  match e with
  | SystemExit _ => false
  | _ => true
  end.

Inductive pyresult (A : Type) : Type :=
| Return (a : A)
| Raise (e : exn).
Arguments Return {A} a.
Arguments Raise {A} e.

Definition returned {A} (r : pyresult A) : bool :=
  match r with Return _ => true | Raise _ => false end.

(** ** Operations of the Python data model used by the program *)

Fixpoint assoc {A} (key : string) (d : list (string * A)) : option A :=
  match d with
  | [] => None
  | (k, v) :: d' => if String.eqb k key then Some v else assoc key d'
  end.

Definition keys {A} (d : list (string * A)) : list string := map fst d.

(** [needle in haystack] on two [str]: substring test. *)
Fixpoint substring_of (needle haystack : string) : bool :=
  if String.prefix needle haystack then true
  else match haystack with
       | EmptyString => false
       | String _ rest => substring_of needle rest
       end.

Definition str_eq_value (item : string) (v : value) : bool :=
  match v with
  | VStr s => String.eqb s item
  | _ => false
  end.

(** [item in container] for a [str] item. *)
Definition py_contains (item : string) (container : value) : pyresult bool :=
  match container with
  | VDict d => Return (existsb (String.eqb item) (keys d))
  | VList l => Return (existsb (str_eq_value item) l)
  | VStr s => Return (substring_of item s)
  | VNone | VBool _ | VInt _ => Raise TypeError
  end.

(** [obj[key]] for a [str] key. *)
Definition py_getitem (obj : value) (key : string) : pyresult value :=
  match obj with
  | VDict d =>
      match assoc key d with
      | Some v => Return v
      | None => Raise (KeyError key)
      end
  | _ => Raise TypeError
  end.

(** A continuation byte of UTF-8: [10xxxxxx]. *)
Definition is_continuation (c : ascii) : bool :=
  let n := nat_of_ascii c in
  ((128 <=? n) && (n <? 192))%nat.

Definition starts_with_continuation (s : string) : bool :=
  match s with
  | EmptyString => false
  | String c _ => is_continuation c
  end.

(** The characters of a [str], each as a string of its own: every byte
    opens a new character unless it is a continuation byte. *)
Fixpoint code_points (s : string) : list string :=
  match s with
  | EmptyString => []
  | String c rest =>
      match code_points rest with
      | [] => [String c EmptyString]
      | p :: ps =>
          if starts_with_continuation rest then String c p :: ps
          else String c EmptyString :: p :: ps
      end
  end.

(** The items a [for] loop draws from [obj]: the elements of a list, the
    keys of a dict, the characters of a [str]. *)
Definition py_iter (obj : value) : pyresult (list value) :=
  match obj with
  | VList l => Return l
  | VDict d => Return (map VStr (keys d))
  | VStr s => Return (map VStr (code_points s))
  | VNone | VBool _ | VInt _ => Raise TypeError
  end.

(** [str.upper] on the ASCII range, which covers the service names. *)
Definition upper_ascii (c : ascii) : ascii :=
  let n := nat_of_ascii c in
  if ((97 <=? n) && (n <=? 122))%nat then ascii_of_nat (n - 32) else c.

Fixpoint upper (s : string) : string :=
  match s with
  | EmptyString => EmptyString
  | String c rest => String (upper_ascii c) (upper rest)
  end.

(** ** Findings and events *)

(** A finding is the dict appended to [self.results], in insertion order. *)
Definition finding : Type := list (string * value).

(** One invocation of a probe method by the engine, with what came back.
    [pe_username] is [None] for [check_redis], which has no such argument. *)
Record probe_event : Type := mkProbe {
  pe_service : string;
  pe_host : value;
  pe_port : value;
  pe_username : option value;
  pe_password : value;
  pe_outcome : pyresult bool
}.

(** The list objects of the program.  The only list it creates and mutates
    is [self.results]; [run_checks] returns this very object, not a copy. *)
Inductive list_ref : Type :=
| self_results.

Definition handle : Type := nat.

(** Calls into the client libraries, with the arguments the source passes. *)
Inductive lib_call : Type :=
| Psycopg2Connect (host port user password : value) (database : string) (connect_timeout : Z)
| MysqlConnect (host port user password : value) (connection_timeout : Z)
| MongoClient (uri : string)
| MongoServerInfo (client : handle)
| PymssqlConnect (server port user password : value) (login_timeout : Z)
| OracledbConnect (user password : value) (dsn : string) (timeout : Z)
| RedisInit (host port password : value) (socket_timeout : Z)
| RedisPing (r : handle)
| Close (conn : handle).

Definition lib_event : Type := (lib_call * pyresult handle)%type.

Definition is_redis_call (c : lib_call) : bool :=
  match c with
  | RedisInit _ _ _ _ | RedisPing _ => true
  | _ => false
  end.

Definition succeeded (ev : probe_event) : bool :=
  match pe_outcome ev with
  | Return true => true
  | _ => false
  end.

(** ** What the sweep is expected to do *)

(** The Finding that a successful probe event stands for: the dict of
    [check_database] when the probe took a username, the dict of the Redis
    sweep when it did not. *)
Definition finding_of (ev : probe_event) : finding :=
  match pe_username ev with
  | Some u =>
      [ ("service", VStr (upper (pe_service ev)));
        ("host", pe_host ev);
        ("port", pe_port ev);
        ("username", u);
        ("password", pe_password ev) ]
  | None =>
      [ ("service", VStr "Redis");
        ("host", pe_host ev);
        ("port", pe_port ev);
        ("password", pe_password ev) ]
  end.

Definition findings_of (evs : list probe_event) : list finding :=
  map finding_of (filter succeeded evs).

(** The names under which the sweep visits services, in its order. *)
Definition sweep_order : list string :=
  ["postgresql"; "mysql"; "mongodb"; "mssql"; "oracle"; "redis"].

Fixpoint services_before (service : string) (l : list string) : list string :=
  match l with
  | [] => []
  | x :: l' => if String.eqb x service then [] else x :: services_before service l'
  end.

(** Key of the candidate list in the entry of a service. *)
Definition candidates_key (service : string) : string :=
  if String.eqb service "redis" then "default_passwords" else "default_credentials".

(** A probe event carries a username exactly when it comes from a database
    service type. *)
Definition event_ok (ev : probe_event) : Prop :=
  match pe_username ev with
  | Some _ => In (pe_service ev) ["postgresql"; "mysql"; "mongodb"; "mssql"; "oracle"]
  | None => pe_service ev = "redis"
  end.

(** An attempt: a probe event without its outcome. *)
Record attempt : Type := mkAttempt {
  at_service : string;
  at_host : value;
  at_port : value;
  at_username : option value;
  at_password : value
}.

Definition attempt_of (ev : probe_event) : attempt :=
  mkAttempt (pe_service ev) (pe_host ev) (pe_port ev) (pe_username ev) (pe_password ev).

Definition attempt_finding (a : attempt) : finding :=
  finding_of (mkProbe (at_service a) (at_host a) (at_port a) (at_username a)
                (at_password a) (Return true)).

(** [select l flags] keeps, in order, the elements of [l] whose flag is set. *)
Fixpoint select {A} (l : list A) (flags : list bool) : list A :=
  match l, flags with
  | x :: l', b :: flags' => if b then x :: select l' flags' else select l' flags'
  | _, _ => []
  end.

(** [v] is a dict that has [key]. *)
Definition has_key (key : string) (v : value) : bool :=
  match v with
  | VDict d => match assoc key d with Some _ => true | None => false end
  | _ => false
  end.

(** [v[key]] where it exists. *)
Definition field (key : string) (v : value) : value :=
  match py_getitem v key with
  | Return x => x
  | Raise _ => VNone
  end.

(** The first of [host], [port] that an entry lacks. *)
Definition missing_field (inst : value) : string :=
  if has_key "host" inst then "port" else "host".

(** Well-formed entries: an instance has [host], [port] and a list of
    candidates; a database candidate has [username] and [password]. *)
Definition credential_ok (cred : value) : bool :=
  has_key "username" cred && has_key "password" cred.

Definition db_instance_ok (inst : value) : bool :=
  has_key "host" inst && has_key "port" inst &&
  match field "default_credentials" inst with
  | VList creds => has_key "default_credentials" inst && forallb credential_ok creds
  | _ => false
  end.

Definition redis_instance_ok (inst : value) : bool :=
  has_key "host" inst && has_key "port" inst &&
  match field "default_passwords" inst with
  | VList _ => has_key "default_passwords" inst
  | _ => false
  end.

Definition entry_ok (ok : value -> bool) (d : list (string * value)) (service : string) : bool :=
  match assoc service d with
  | Some inst => ok inst
  | None => true
  end.

Definition well_formed (config : value) : bool :=
  match config with
  | VDict d =>
      forallb (entry_ok db_instance_ok d) ["postgresql"; "mysql"; "mongodb"; "mssql"; "oracle"]
      && entry_ok redis_instance_ok d "redis"
  | _ => false
  end.

(** The candidates of an instance, in the order a [for] loop draws them. *)
Definition candidates (key : string) (inst : value) : list value :=
  match py_iter (field key inst) with
  | Return l => l
  | Raise _ => []
  end.

Definition db_attempts (d : list (string * value)) (db_type : string) : list attempt :=
  match assoc db_type d with
  | Some inst =>
      map (fun cred => mkAttempt db_type (field "host" inst) (field "port" inst)
                         (Some (field "username" cred)) (field "password" cred))
          (candidates "default_credentials" inst)
  | None => []
  end.

Definition redis_attempts (d : list (string * value)) : list attempt :=
  match assoc "redis" d with
  | Some inst =>
      map (fun password => mkAttempt "redis" (field "host" inst) (field "port" inst)
                             None password)
          (candidates "default_passwords" inst)
  | None => []
  end.

(** The Cartesian product the sweep is to explore: for each configured
    database type, in the order of the sweep, its instance with each
    candidate in list order; then the Redis instance with each password. *)
Definition enumerate (config : value) : list attempt :=
  match config with
  | VDict d =>
      flat_map (db_attempts d) ["postgresql"; "mysql"; "mongodb"; "mssql"; "oracle"]
      ++ redis_attempts d
  | _ => []
  end.

(** Exit status of the interpreter for the outcome of [main]: 0 on normal
    return, the code of a [SystemExit], 1 for any other uncaught exception. *)
Definition exit_status (r : pyresult unit) : Z :=
  match r with
  | Return _ => 0
  | Raise (SystemExit code) => code
  | Raise _ => 1
  end.

(** Keys of the two kinds of Finding. *)
Definition database_finding_keys : list string :=
  ["service"; "host"; "port"; "username"; "password"].

Definition redis_finding_keys : list string :=
  ["service"; "host"; "port"; "password"].

(** ** A scripted environment and sample configurations *)

(** A stand-in for the client libraries with scripted outcomes: PostgreSQL
    accepts [postgres]/[postgres], MySQL accepts [root]/[root], Redis
    accepts the password [redis]; everything else is refused.  The world is
    a counter of the calls made. *)
Definition stub_outcome (c : lib_call) : pyresult handle :=
  match c with
  | Psycopg2Connect _ _ user password _ _ =>
      if str_eq_value "postgres" user && str_eq_value "postgres" password
      then Return 1%nat else Raise (ClientError CredentialRejected)
  | MysqlConnect _ _ user password _ =>
      if str_eq_value "root" user && str_eq_value "root" password
      then Return 2%nat else Raise (ClientError CredentialRejected)
  | RedisInit _ _ password _ =>
      if str_eq_value "redis" password then Return 3%nat else Return 4%nat
  | RedisPing r =>
      if Nat.eqb r 3 then Return 0%nat else Raise (ClientError CredentialRejected)
  | Close _ => Return 0%nat
  | _ => Raise (ClientError ConnectionRefused)
  end.

Definition stub_lib (c : lib_call) (w : nat) : pyresult handle * nat :=
  (stub_outcome c, S w).

Definition stub_load (config : value) (path : string) (w : nat) : pyresult value * nat :=
  (Return config, w).

Definition stub_format (v : value) : string :=
  match v with
  | VStr s => s
  | _ => ""
  end.

Definition credential (username password : string) : value :=
  VDict [("username", VStr username); ("password", VStr password)].

(** One PostgreSQL instance at [db.local:5432] with two candidates. *)
Definition db_local_config : value :=
  VDict [ ("postgresql",
           VDict [ ("host", VStr "db.local");
                   ("port", VInt 5432);
                   ("default_credentials",
                    VList [credential "admin" "admin"; credential "postgres" "postgres"]) ]) ].

(** Two database types with two candidates each, and a Redis instance. *)
Definition two_types_config : value :=
  VDict [ ("mysql",
           VDict [ ("host", VStr "10.0.0.2");
                   ("port", VInt 3306);
                   ("default_credentials",
                    VList [credential "root" "root"; credential "root" "toor"]) ]);
          ("postgresql",
           VDict [ ("host", VStr "10.0.0.1");
                   ("port", VInt 5432);
                   ("default_credentials",
                    VList [credential "postgres" "postgres"; credential "admin" "admin"]) ]);
          ("redis",
           VDict [ ("host", VStr "10.0.0.3");
                   ("port", VInt 6379);
                   ("default_passwords", VList [VStr "redis"; VStr "123456"]) ]) ].

(** As [db_local_config], with a MySQL instance that has no [host]. *)
Definition mysql_without_host_config : value :=
  VDict [ ("postgresql",
           VDict [ ("host", VStr "db.local");
                   ("port", VInt 5432);
                   ("default_credentials", VList [credential "postgres" "postgres"]) ]);
          ("mysql",
           VDict [ ("port", VInt 3306);
                   ("default_credentials", VList [credential "root" "root"]) ]) ].

(** A PostgreSQL instance without [host] and without candidates. *)
Definition no_candidates_config : value :=
  VDict [ ("postgresql",
           VDict [ ("port", VInt 5432);
                   ("default_credentials", VList []) ]) ].

(** A PostgreSQL instance without [host], with one candidate. *)
Definition postgres_without_host_config : value :=
  VDict [ ("postgresql",
           VDict [ ("port", VInt 5432);
                   ("default_credentials", VList [credential "postgres" "postgres"]) ]) ].

(** [two_types_config] with a mistyped service name added. *)
Definition typo_config : value :=
  match two_types_config with
  | VDict d => VDict (("postgres", VDict [("host", VStr "10.0.0.9")]) :: d)
  | other => other
  end.

(** Membership in a list given by its elements. *)
Ltac in_list := simpl; repeat (first [left; reflexivity | right]).

Ltac in_cases H :=
  simpl in H; repeat (destruct H as [<-|H]; [in_list|]); destruct H.

(** ** Further vocabulary for the behaviour of the probes and of the sweep *)

(** What a probe method answers, given the library calls it made: [True]
    when all of them returned; when one raised, [False] if what it raised
    is an [Exception], and that exception itself otherwise. *)
Fixpoint outcome_of_calls (calls : list (lib_call * pyresult handle)) : pyresult bool :=
  match calls with
  | [] => Return true
  | (_, Return _) :: rest => outcome_of_calls rest
  | (_, Raise e) :: _ => if is_Exception e then Return false else Raise e
  end.

(** The constants the source passes to the client libraries: the database
    [postgres], the Oracle service [ORCL], and a timeout of 3 seconds
    (3000 ms in the MongoDB URI) on every call that opens a connection. *)
Definition bounded_call (c : lib_call) : Prop :=
  match c with
  | Psycopg2Connect _ _ _ _ database t => database = "postgres" /\ t = 3%Z
  | MysqlConnect _ _ _ _ t => t = 3%Z
  | PymssqlConnect _ _ _ _ t => t = 3%Z
  | OracledbConnect _ _ dsn t => (exists address, dsn = (address ++ "/ORCL")%string) /\ t = 3%Z
  | RedisInit _ _ _ t => t = 3%Z
  | MongoClient uri =>
      exists address, uri = (address ++ "/?serverSelectionTimeoutMS=3000")%string
  | MongoServerInfo _ | RedisPing _ | Close _ => True
  end.

(** A string that holds one character: a byte and continuation bytes. *)
Definition single_code_point (s : string) : Prop :=
  match s with
  | EmptyString => False
  | String _ rest => forallb is_continuation (list_ascii_of_string rest) = true
  end.

(** The pieces of a string put together again. *)
Definition join (pieces : list string) : string :=
  fold_right String.append EmptyString pieces.

(** The values the [service] key of a Finding can take. *)
Definition service_values : list (option value) :=
  [ Some (VStr "POSTGRESQL"); Some (VStr "MYSQL"); Some (VStr "MONGODB");
    Some (VStr "MSSQL"); Some (VStr "ORACLE"); Some (VStr "Redis") ].

(** The keys of a service entry that the sweep reads. *)
Definition instance_keys : list string :=
  ["host"; "port"; "default_credentials"; "default_passwords"].

(** The exception [check_database] raises for a candidate that is not a
    dict with [username] and [password]. *)
Definition candidate_error (cred : value) : exn :=
  match cred with
  | VDict c =>
      match assoc "username" c with
      | None => KeyError "username"
      | Some _ => KeyError "password"
      end
  | _ => TypeError
  end.

(** A client library that is interrupted on every call. *)
Definition interrupted_lib (c : lib_call) (w : nat) : pyresult handle * nat :=
  (Raise (SystemExit 130), S w).

(** A Redis instance whose passwords are given as one string. *)
Definition redis_string_config : value :=
  VDict [ ("redis",
           VDict [ ("host", VStr "10.0.0.3");
                   ("port", VInt 6379);
                   ("default_passwords", VStr "abc") ]) ].

(** [two_types_config] with a [database] key added to the PostgreSQL entry. *)
Definition extra_key_config : value :=
  VDict [ ("mysql",
           VDict [ ("host", VStr "10.0.0.2");
                   ("port", VInt 3306);
                   ("default_credentials",
                    VList [credential "root" "root"; credential "root" "toor"]) ]);
          ("postgresql",
           VDict [ ("host", VStr "10.0.0.1");
                   ("database", VStr "inventory");
                   ("port", VInt 5432);
                   ("default_credentials",
                    VList [credential "postgres" "postgres"; credential "admin" "admin"]) ]);
          ("redis",
           VDict [ ("host", VStr "10.0.0.3");
                   ("port", VInt 6379);
                   ("default_passwords", VList [VStr "redis"; VStr "123456"]) ]) ].

(** ** The checker *)

Section Checker.

(** The environment of a run: the state of the network and file system,
    the client libraries acting on it, YAML loading of a path
    ([open] followed by [yaml.safe_load]), and the formatting of a value
    inside an f-string. *)
Variable World : Type.
Variable lib : lib_call -> World -> pyresult handle * World.
Variable load_yaml : string -> World -> pyresult value * World.
Variable py_format : value -> string.

(** [results] is the attribute [self.results] of the checker in use;
    [probe_log] and [lib_log] record, in order, the probe methods the
    engine invoked and the client-library calls made. *)
Record state : Type := mkState {
  results : list finding;
  world : World;
  probe_log : list probe_event;
  lib_log : list lib_event
}.

(** The elements of a list object in a given state. *)
Definition contents (r : list_ref) (s : state) : list finding :=
  match r with
  | self_results => results s
  end.

Definition M (A : Type) : Type := state -> pyresult A * state.

Definition ret {A} (a : A) : M A := fun s => (Return a, s).

Definition bind {A B} (c : M A) (k : A -> M B) : M B :=
  fun s =>
    match c s with
    | (Return a, s') => k a s'
    | (Raise e, s') => (Raise e, s')
    end.

Definition lift {A} (r : pyresult A) : M A := fun s => (r, s).

Notation "x <- c ;; k" := (bind c (fun x => k))
  (at level 61, c at next level, right associativity).
Notation "c ;;; k" := (bind c (fun _ => k))
  (at level 61, right associativity).

(** [try: body except Exception: handler] *)
Definition try_except_Exception {A} (body handler : M A) : M A :=
  fun s =>
    match body s with
    | (Return a, s') => (Return a, s')
    | (Raise e, s') => if is_Exception e then handler s' else (Raise e, s')
    end.

Fixpoint for_each {A} (l : list A) (body : A -> M unit) : M unit :=
  match l with
  | [] => ret tt
  | x :: l' => body x ;;; for_each l' body
  end.

Definition call_lib (c : lib_call) : M handle :=
  fun s =>
    let (r, w) := lib c (world s) in
    (r, mkState (results s) w (probe_log s) (lib_log s ++ [(c, r)])).

(** [self.results.append(f)] *)
Definition append_result (f : finding) : M unit :=
  fun s => (Return tt, mkState (results s ++ [f]) (world s) (probe_log s) (lib_log s)).

(** ** The probe methods *)

Definition check_postgres (host port username password : value) : M bool :=
  try_except_Exception
    (conn <- call_lib (Psycopg2Connect host port username password "postgres" 3) ;;
     call_lib (Close conn) ;;;
     ret true)
    (ret false).

Definition check_mysql (host port username password : value) : M bool :=
  try_except_Exception
    (conn <- call_lib (MysqlConnect host port username password 3) ;;
     call_lib (Close conn) ;;;
     ret true)
    (ret false).

Definition check_mongodb (host port username password : value) : M bool :=
  try_except_Exception
    (let uri := ("mongodb://" ++ py_format username ++ ":" ++ py_format password
                 ++ "@" ++ py_format host ++ ":" ++ py_format port
                 ++ "/?serverSelectionTimeoutMS=3000")%string in
     client <- call_lib (MongoClient uri) ;;
     call_lib (MongoServerInfo client) ;;;
     call_lib (Close client) ;;;
     ret true)
    (ret false).

Definition check_mssql (host port username password : value) : M bool :=
  try_except_Exception
    (conn <- call_lib (PymssqlConnect host port username password 3) ;;
     call_lib (Close conn) ;;;
     ret true)
    (ret false).

Definition check_oracle (host port username password : value) : M bool :=
  try_except_Exception
    (let dsn := (py_format host ++ ":" ++ py_format port ++ "/ORCL")%string in
     conn <- call_lib (OracledbConnect username password dsn 3) ;;
     call_lib (Close conn) ;;;
     ret true)
    (ret false).

Definition check_redis (host port password : value) : M bool :=
  try_except_Exception
    (r <- call_lib (RedisInit host port password 3) ;;
     call_lib (RedisPing r) ;;;
     ret true)
    (ret false).

(** ** The engine *)

(** The engine calling a probe method: the call and its outcome are
    recorded in [probe_log]. *)
Definition invoke (service : string) (host port : value)
    (username : option value) (password : value) (method : M bool) : M bool :=
  fun s =>
    let (r, s') := method s in
    (r, mkState (results s') (world s')
          (probe_log s' ++ [mkProbe service host port username password r])
          (lib_log s')).

Definition check_methods : list (string * (value -> value -> value -> value -> M bool)) :=
  [ ("postgresql", check_postgres);
    ("mysql", check_mysql);
    ("mongodb", check_mongodb);
    ("mssql", check_mssql);
    ("oracle", check_oracle) ].

Definition check_database (db_type : string) (config cred : value) : M unit :=
  match assoc db_type check_methods with
  | None => ret tt
  | Some method =>
      host <- lift (py_getitem config "host") ;;
      port <- lift (py_getitem config "port") ;;
      username <- lift (py_getitem cred "username") ;;
      password <- lift (py_getitem cred "password") ;;
      success <- invoke db_type host port (Some username) password
                   (method host port username password) ;;
      if success then
        host' <- lift (py_getitem config "host") ;;
        port' <- lift (py_getitem config "port") ;;
        username' <- lift (py_getitem cred "username") ;;
        password' <- lift (py_getitem cred "password") ;;
        append_result [ ("service", VStr (upper db_type));
                        ("host", host');
                        ("port", port');
                        ("username", username');
                        ("password", password') ]
      else ret tt
  end.

Definition database_services : list string :=
  ["postgresql"; "mysql"; "mongodb"; "mssql"; "oracle"].

(** Body of the loop [for db_type in database_services]. *)
Definition check_db_type (config : value) (db_type : string) : M unit :=
  present <- lift (py_contains db_type config) ;;
  if present then
    db_config <- lift (py_getitem config db_type) ;;
    creds <- lift (py_getitem db_config "default_credentials") ;;
    creds <- lift (py_iter creds) ;;
    for_each creds (check_database db_type db_config)
  else ret tt.

(** Body of the loop [for password in redis_config['default_passwords']]. *)
Definition check_redis_password (redis_config password : value) : M unit :=
  host <- lift (py_getitem redis_config "host") ;;
  port <- lift (py_getitem redis_config "port") ;;
  success <- invoke "redis" host port None password
               (check_redis host port password) ;;
  if success then
    host' <- lift (py_getitem redis_config "host") ;;
    port' <- lift (py_getitem redis_config "port") ;;
    append_result [ ("service", VStr "Redis");
                    ("host", host');
                    ("port", port');
                    ("password", password) ]
  else ret tt.

Definition check_redis_section (config : value) : M unit :=
  present <- lift (py_contains "redis" config) ;;
  if present then
    redis_config <- lift (py_getitem config "redis") ;;
    passwords <- lift (py_getitem redis_config "default_passwords") ;;
    passwords <- lift (py_iter passwords) ;;
    for_each passwords (check_redis_password redis_config)
  else ret tt.

Definition run_checks (config : value) : M list_ref :=
  for_each database_services (check_db_type config) ;;;
  check_redis_section config ;;;
  ret self_results.

(** ** Construction and [main] *)

Definition _load_config (config_path : string) : M value :=
  try_except_Exception
    (fun s =>
       let (r, w) := load_yaml config_path (world s) in
       (r, mkState (results s) w (probe_log s) (lib_log s)))
    (fun s => (Raise (SystemExit 1), s)).

(** [CredentialChecker(config_path)]: the new object's [config] is
    returned and [results] now stands for the new object's empty list. *)
Definition CredentialChecker (config_path : string) : M value :=
  config <- _load_config config_path ;;
  (fun s => (Return config, mkState [] (world s) (probe_log s) (lib_log s))).

(** Body of the reporting loop of [main]; only its lookups matter. *)
Definition report (result : finding) : M unit :=
  lift (py_getitem (VDict result) "service") ;;;
  lift (py_getitem (VDict result) "host") ;;;
  lift (py_getitem (VDict result) "port") ;;;
  has_user <- lift (py_contains "username" (VDict result)) ;;
  (if has_user : bool then lift (py_getitem (VDict result) "username") ;;; ret tt
   else ret tt) ;;;
  lift (py_getitem (VDict result) "password") ;;;
  ret tt.

(** [main] after argument parsing. *)
Definition main (config_path : string) : M unit :=
  config <- CredentialChecker config_path ;;
  found <- run_checks config ;;
  (fun s =>
     match contents found s with
     | [] => ret tt s
     | _ :: _ => for_each (contents found s) report s
     end).



(** ** Properties of runs *)

(** The client libraries raise nothing but instances of [Exception]:
    refused and unreachable connections, failed handshakes, rejected
    credentials, protocol errors and timeouts are all of this kind. *)
Definition lib_raises_Exception_only : Prop :=
  forall c w e, fst (lib c w) = Raise e -> is_Exception e = true.

(** The outcome of a library call is fixed by the call, whatever the state
    of the world. *)
Definition lib_outcomes_fixed : Prop :=
  forall c w w', fst (lib c w) = fst (lib c w').

(** [s'] is [s] after some probe events [evs] of the services [S], with one
    Finding appended for each successful event and nothing else. *)
Definition extends (S : list string) (s s' : state) : Prop :=
  exists evs,
    probe_log s' = probe_log s ++ evs /\
    results s' = results s ++ findings_of evs /\
    Forall (fun ev => In (pe_service ev) S /\ event_ok ev) evs.

(** A computation that leaves [self.results] and the probe log alone. *)
Definition quiet (s s' : state) : Prop :=
  results s' = results s /\ probe_log s' = probe_log s.

Definition preserves (R : state -> state -> Prop) {A} (c : M A) : Prop :=
  forall s, R s (snd (c s)).

(** A probe that returns a boolean from every state: [true] when every
    library call it made returned, [false] as soon as one raised. *)
Definition collapses_failures (probe : M bool) : Prop :=
  forall s, exists b calls,
    fst (probe s) = Return b /\
    lib_log (snd (probe s)) = lib_log s ++ calls /\
    calls <> [] /\
    b = forallb (fun ce => returned (snd ce)) calls.

(** A computation whose outcome and appended Findings are the same from
    any two states. *)
Definition uniform {A} (c : M A) : Prop :=
  forall s1 s2,
    fst (c s1) = fst (c s2) /\
    exists delta,
      results (snd (c s1)) = results s1 ++ delta /\
      results (snd (c s2)) = results s2 ++ delta.

(** [c] returns from every state, having invoked exactly the attempts [l],
    in this order. *)
Definition attempts_made (l : list attempt) (s s' : state) : Prop :=
  exists evs, probe_log s' = probe_log s ++ evs /\ map attempt_of evs = l.

Definition completes_with (c : M unit) (l : list attempt) : Prop :=
  forall s, fst (c s) = Return tt /\ attempts_made l s (snd (c s)).

(** What the sweep does for one service name: the body of the loop over
    the database types, or the Redis part. *)
Definition visit (config : value) (service : string) : M unit :=
  if String.eqb service "redis" then check_redis_section config
  else check_db_type config service.

(** Some configured service has candidates but lacks [host] or [port]. *)
Definition malformed_instance (config : value) : Prop :=
  exists service inst candidates c cs,
    In service sweep_order /\
    py_getitem config service = Return inst /\
    (has_key "host" inst = false \/ has_key "port" inst = false) /\
    py_getitem inst (candidates_key service) = Return candidates /\
    py_iter candidates = Return (c :: cs).

(** Some configured service lacks [host] or [port]. *)
Definition missing_connection_field (config : value) : Prop :=
  exists service inst,
    In service sweep_order /\
    py_getitem config service = Return inst /\
    (has_key "host" inst = false \/ has_key "port" inst = false).

(** The run raises and has invoked no probe. *)
Definition fails_before_probing (config : value) (s : state) : Prop :=
  returned (fst (run_checks config s)) = false /\
  probe_log (snd (run_checks config s)) = probe_log s.

(** The state in which a newly constructed checker starts: no Findings,
    nothing logged. *)
Definition fresh_state (w : World) : state := mkState [] w [] [].

(** A non-zero exit status comes from a failed load only. *)
Definition exit_nonzero_only_on_load_failure (config_path : string) (s : state) : Prop :=
  exit_status (fst (main config_path s)) <> 0%Z ->
  returned (fst (load_yaml config_path (world s))) = false.

(** Calling [run_checks] again on the same checker returns the sequence of
    Findings that the first call returned: the list returned the second
    time holds, when that call returns, what the list returned the first
    time held when the first call returned. *)
Definition second_run_returns_the_same (config : value) (s : state) : Prop :=
  forall r1 r2,
    fst (run_checks config s) = Return r1 ->
    fst (run_checks config (snd (run_checks config s))) = Return r2 ->
    contents r2 (snd (run_checks config (snd (run_checks config s)))) =
    contents r1 (snd (run_checks config s)).

(** A probe that calls [connect] and, when that returned a connection,
    closes it, and answers by the outcome of these calls. *)
Definition connects_then_closes (connect : lib_call) (probe : M bool) : Prop :=
  forall s, exists calls,
    lib_log (snd (probe s)) = lib_log s ++ calls /\
    ((exists e, calls = [(connect, Raise e)]) \/
     (exists conn o, calls = [(connect, Return conn); (Close conn, o)])) /\
    fst (probe s) = outcome_of_calls calls.

(** The attempts a computation has made are the first ones of [l], and all
    of [l] when it returns. *)
Definition attempts_prefix {A} (c : M A) (l : list attempt) : Prop :=
  forall s, exists evs rest,
    probe_log (snd (c s)) = probe_log s ++ evs /\
    l = map attempt_of evs ++ rest /\
    (returned (fst (c s)) = true -> rest = []).

(** Every probe a computation invoked returned, except that the last one
    may have raised, something that is not an [Exception], and then the
    computation raises the same exception. *)
Definition stops_at_raise {A} (c : M A) : Prop :=
  forall s, exists evs,
    probe_log (snd (c s)) = probe_log s ++ evs /\
    (Forall (fun ev => returned (pe_outcome ev) = true) evs \/
     exists evs0 ev e,
       evs = evs0 ++ [ev] /\
       Forall (fun ev => returned (pe_outcome ev) = true) evs0 /\
       pe_outcome ev = Raise e /\
       is_Exception e = false /\
       fst (c s) = Raise e).



(** The library calls made between [s] and [s'] carry the constants of
    [bounded_call]. *)
Definition calls_bounded (s s' : state) : Prop :=
  exists calls,
    lib_log s' = lib_log s ++ calls /\
    Forall (fun ce => bounded_call (fst ce)) calls.

(** The exceptions that a malformed configuration gives rise to. *)
Definition config_error (e : exn) : Prop :=
  e = TypeError \/
  exists key,
    e = KeyError key /\
    In key ["host"; "port"; "username"; "password";
            "default_credentials"; "default_passwords"].

Definition raises_config_errors_only {A} (c : M A) : Prop :=
  forall s e, fst (c s) = Raise e -> config_error e.

(** ** Generic lemmas on the monad *)

Lemma bind_unfold {A B} (c : M A) (k : A -> M B) s :
  bind c k s =
  match c s with
  | (Return a, s') => k a s'
  | (Raise e, s') => (Raise e, s')
  end.
Proof. reflexivity. Qed.

Lemma bind_lift_Return {A B} (a : A) (k : A -> M B) s :
  bind (lift (Return a)) k s = k a s.
Proof. reflexivity. Qed.

Lemma bind_lift_Raise {A B} e (k : A -> M B) s :
  bind (lift (Raise e)) k s = (Raise e, s).
Proof. reflexivity. Qed.

Lemma for_each_app {A} (l1 l2 : list A) (body : A -> M unit) s :
  for_each (l1 ++ l2) body s = bind (for_each l1 body) (fun _ => for_each l2 body) s.
Proof.
  revert s; induction l1 as [|x l1 IH]; intros s; simpl.
  - reflexivity.
  - rewrite !bind_unfold. destruct (body x s) as [[[]|e] s1]; [apply IH|reflexivity].
Qed.

Section Preservation.

Variable R : state -> state -> Prop.
Hypothesis R_refl : forall s, R s s.
Hypothesis R_trans : forall s1 s2 s3, R s1 s2 -> R s2 s3 -> R s1 s3.

Lemma preserves_ret {A} (a : A) : preserves R (ret a).
Proof. intros s; apply R_refl. Qed.

Lemma preserves_lift {A} (r : pyresult A) : preserves R (lift r).
Proof. intros s; apply R_refl. Qed.

Lemma preserves_bind {A B} (c : M A) (k : A -> M B) :
  preserves R c -> (forall a, preserves R (k a)) -> preserves R (bind c k).
Proof.
  intros Hc Hk s. rewrite bind_unfold.
  specialize (Hc s). destruct (c s) as [[a|e] s1]; simpl in *.
  - eapply R_trans; [exact Hc|apply Hk].
  - exact Hc.
Qed.

Lemma preserves_try {A} (body handler : M A) :
  preserves R body -> preserves R handler -> preserves R (try_except_Exception body handler).
Proof.
  intros Hb Hh s. unfold try_except_Exception.
  specialize (Hb s). destruct (body s) as [[a|e] s1]; simpl in *.
  - exact Hb.
  - destruct (is_Exception e); simpl; [eapply R_trans; [exact Hb|apply Hh]|exact Hb].
Qed.

Lemma preserves_for_each {A} (l : list A) (body : A -> M unit) :
  (forall x, In x l -> preserves R (body x)) -> preserves R (for_each l body).
Proof.
  induction l as [|x l IH]; intros H; simpl.
  - apply preserves_ret.
  - apply preserves_bind; [apply H; left; reflexivity|].
    intros _. apply IH. intros y Hy. apply H. right; exact Hy.
Qed.

End Preservation.


(** ** The relations [quiet] and [extends] *)

Lemma quiet_refl s : quiet s s.
Proof. split; reflexivity. Qed.

Lemma quiet_trans s1 s2 s3 : quiet s1 s2 -> quiet s2 s3 -> quiet s1 s3.
Proof. intros [H1 H2] [H3 H4]; split; congruence. Qed.

Lemma findings_of_app evs1 evs2 :
  findings_of (evs1 ++ evs2) = findings_of evs1 ++ findings_of evs2.
Proof. unfold findings_of. now rewrite filter_app, map_app. Qed.

Lemma extends_refl S s : extends S s s.
Proof.
  exists []. rewrite !app_nil_r. repeat split; constructor.
Qed.

Lemma extends_trans S s1 s2 s3 : extends S s1 s2 -> extends S s2 s3 -> extends S s1 s3.
Proof.
  intros (e1 & L1 & R1 & F1) (e2 & L2 & R2 & F2).
  exists (e1 ++ e2). repeat split.
  - now rewrite L2, L1, app_assoc.
  - now rewrite R2, R1, findings_of_app, app_assoc.
  - apply Forall_app; split; assumption.
Qed.

Lemma extends_mono S S' s s' : incl S S' -> extends S s s' -> extends S' s s'.
Proof.
  intros Hi (evs & L & R & F). exists evs. repeat split; try assumption.
  eapply Forall_impl; [|exact F]. intros ev [H1 H2]; split; [apply Hi; exact H1|exact H2].
Qed.

Lemma quiet_extends S s s' : quiet s s' -> extends S s s'.
Proof.
  intros [H1 H2]. exists []. rewrite !app_nil_r. repeat split; try assumption. constructor.
Qed.

(** ** The probe methods leave the checker alone *)

Lemma call_lib_quiet c : preserves quiet (call_lib c).
Proof.
  intros s. unfold call_lib. destruct (lib c (world s)) as [r w]. split; reflexivity.
Qed.

Ltac quiet_steps :=
  repeat first
    [ apply (preserves_try quiet quiet_trans)
    | apply (preserves_bind quiet quiet_trans); [|intros ?]
    | apply call_lib_quiet
    | apply (preserves_ret quiet quiet_refl)
    | apply (preserves_lift quiet quiet_refl) ].

Lemma check_postgres_quiet h p u pw : preserves quiet (check_postgres h p u pw).
Proof. unfold check_postgres. quiet_steps. Qed.

Lemma check_mysql_quiet h p u pw : preserves quiet (check_mysql h p u pw).
Proof. unfold check_mysql. quiet_steps. Qed.

Lemma check_mongodb_quiet h p u pw : preserves quiet (check_mongodb h p u pw).
Proof. unfold check_mongodb. quiet_steps. Qed.

Lemma check_mssql_quiet h p u pw : preserves quiet (check_mssql h p u pw).
Proof. unfold check_mssql. quiet_steps. Qed.

Lemma check_oracle_quiet h p u pw : preserves quiet (check_oracle h p u pw).
Proof. unfold check_oracle. quiet_steps. Qed.

Lemma check_redis_quiet h p pw : preserves quiet (check_redis h p pw).
Proof. unfold check_redis. quiet_steps. Qed.

Lemma check_methods_cases db_type method :
  assoc db_type check_methods = Some method ->
  (db_type = "postgresql" /\ method = check_postgres) \/
  (db_type = "mysql" /\ method = check_mysql) \/
  (db_type = "mongodb" /\ method = check_mongodb) \/
  (db_type = "mssql" /\ method = check_mssql) \/
  (db_type = "oracle" /\ method = check_oracle).
Proof.
  unfold check_methods; cbn [assoc].
  repeat match goal with
  | |- context [String.eqb ?a db_type] =>
      destruct (String.eqb_spec a db_type) as [<-|_];
      [intros [= <-]; tauto|]
  end.
  discriminate.
Qed.

Lemma check_methods_In db_type method :
  assoc db_type check_methods = Some method -> In db_type database_services.
Proof.
  intros H. apply check_methods_cases in H.
  unfold database_services.
  destruct H as [[-> _]|[[-> _]|[[-> _]|[[-> _]|[-> _]]]]]; in_list.
Qed.

Lemma check_methods_quiet db_type method h p u pw :
  assoc db_type check_methods = Some method -> preserves quiet (method h p u pw).
Proof.
  intros H. apply check_methods_cases in H.
  destruct H as [[_ ->]|[[_ ->]|[[_ ->]|[[_ ->]|[_ ->]]]]].
  - apply check_postgres_quiet.
  - apply check_mysql_quiet.
  - apply check_mongodb_quiet.
  - apply check_mssql_quiet.
  - apply check_oracle_quiet.
Qed.

Lemma check_methods_supported db_type :
  In db_type database_services -> exists method, assoc db_type check_methods = Some method.
Proof.
  unfold database_services; simpl.
  intros [<-|[<-|[<-|[<-|[<-|[]]]]]]; eexists; reflexivity.
Qed.

(** ** One probe, one event, at most one Finding *)

Ltac step_lift :=
  match goal with
  | |- context [bind (lift ?r) ?k ?s] =>
      let E := fresh "E" in
      destruct r as [?|?] eqn:E;
      [rewrite bind_lift_Return | rewrite bind_lift_Raise]
  end.

Lemma extends_one S s s1 ev :
  quiet s s1 ->
  In (pe_service ev) S -> event_ok ev ->
  extends S s
    (mkState (results s1 ++ findings_of [ev]) (world s1) (probe_log s1 ++ [ev]) (lib_log s1)).
Proof.
  intros [Hr Hl] HS Hok. exists [ev]; simpl. rewrite Hr, Hl.
  repeat split. constructor; [split; assumption|constructor].
Qed.

Lemma check_database_extends db_type config cred :
  preserves (extends [db_type]) (check_database db_type config cred).
Proof.
  intros s. unfold check_database.
  destruct (assoc db_type check_methods) as [method|] eqn:Hm; [|apply extends_refl].
  do 4 (step_lift; [|apply extends_refl]).
  rewrite bind_unfold. unfold invoke.
  pose proof (check_methods_quiet db_type method a a0 a1 a2 Hm s) as Hq.
  destruct (method a a0 a1 a2 s) as [r s1]. simpl in Hq.
  assert (Hok : forall o, event_ok (mkProbe db_type a a0 (Some a1) a2 o)).
  { intros o. unfold event_ok; simpl. apply (check_methods_In _ _ Hm). }
  assert (Hin : forall o, In (pe_service (mkProbe db_type a a0 (Some a1) a2 o)) [db_type]).
  { intros o; left; reflexivity. }
  destruct r as [[|]|e].
  - rewrite !bind_lift_Return. unfold append_result; simpl.
    apply (extends_one [db_type] s s1 (mkProbe db_type a a0 (Some a1) a2 (Return true)));
      auto.
  - simpl.
    pose proof (extends_one [db_type] s s1 (mkProbe db_type a a0 (Some a1) a2 (Return false))
                  Hq (Hin _) (Hok _)) as H.
    unfold findings_of in H; simpl in H. rewrite app_nil_r in H.
    destruct s1; exact H.
  - simpl.
    pose proof (extends_one [db_type] s s1 (mkProbe db_type a a0 (Some a1) a2 (Raise e))
                  Hq (Hin _) (Hok _)) as H.
    unfold findings_of in H; simpl in H. rewrite app_nil_r in H.
    destruct s1; exact H.
Qed.

Lemma check_redis_password_extends redis_config password :
  preserves (extends ["redis"]) (check_redis_password redis_config password).
Proof.
  intros s. unfold check_redis_password.
  do 2 (step_lift; [|apply extends_refl]).
  rewrite bind_unfold. unfold invoke.
  pose proof (check_redis_quiet a a0 password s) as Hq.
  destruct (check_redis a a0 password s) as [r s1]. simpl in Hq.
  assert (Hok : forall o, event_ok (mkProbe "redis" a a0 None password o)).
  { intros o. reflexivity. }
  assert (Hin : forall o, In (pe_service (mkProbe "redis" a a0 None password o)) ["redis"]).
  { intros o; left; reflexivity. }
  destruct r as [[|]|e].
  - rewrite !bind_lift_Return. unfold append_result; simpl.
    apply (extends_one ["redis"] s s1 (mkProbe "redis" a a0 None password (Return true)));
      auto.
  - simpl.
    pose proof (extends_one ["redis"] s s1 (mkProbe "redis" a a0 None password (Return false))
                  Hq (Hin _) (Hok _)) as H.
    unfold findings_of in H; simpl in H. rewrite app_nil_r in H.
    destruct s1; exact H.
  - simpl.
    pose proof (extends_one ["redis"] s s1 (mkProbe "redis" a a0 None password (Raise e))
                  Hq (Hin _) (Hok _)) as H.
    unfold findings_of in H; simpl in H. rewrite app_nil_r in H.
    destruct s1; exact H.
Qed.

Lemma check_db_type_extends config db_type :
  preserves (extends [db_type]) (check_db_type config db_type).
Proof.
  intros s. unfold check_db_type.
  step_lift; [|apply extends_refl].
  destruct a; [|apply extends_refl].
  do 3 (step_lift; [|apply extends_refl]).
  apply (preserves_for_each _ (extends_refl _) (extends_trans _)).
  intros cred _. apply check_database_extends.
Qed.

Lemma check_redis_section_extends config :
  preserves (extends ["redis"]) (check_redis_section config).
Proof.
  intros s. unfold check_redis_section.
  step_lift; [|apply extends_refl].
  destruct a; [|apply extends_refl].
  do 3 (step_lift; [|apply extends_refl]).
  apply (preserves_for_each _ (extends_refl _) (extends_trans _)).
  intros pw _. apply check_redis_password_extends.
Qed.

Lemma for_each_db_types_extends config (types : list string) :
  preserves (extends types) (for_each types (check_db_type config)).
Proof.
  apply (preserves_for_each _ (extends_refl _) (extends_trans _)).
  intros t Ht s. apply (extends_mono [t]); [|apply check_db_type_extends].
  intros x [<-|[]]; exact Ht.
Qed.

Lemma run_checks_extends config :
  preserves (extends sweep_order) (run_checks config).
Proof.
  unfold run_checks.
  apply (preserves_bind _ (extends_trans _)).
  - intros s. apply (extends_mono database_services).
    + intros x Hx. unfold sweep_order. unfold database_services in Hx. in_cases Hx.
    + apply for_each_db_types_extends.
  - intros _. apply (preserves_bind _ (extends_trans _)).
    + intros s. apply (extends_mono ["redis"]); [|apply check_redis_section_extends].
      intros x [<-|[]]. unfold sweep_order. in_list.
    + intros _ s. apply extends_refl.
Qed.

Lemma contents_results r s : contents r s = results s.
Proof. destruct r. reflexivity. Qed.

(** ** Probes turn every failure into [False] *)

Section ProbeTotality.

Hypothesis lib_ok : lib_raises_Exception_only.

Lemma lib_Raise_is_Exception c w e w' :
  lib c w = (Raise e, w') -> is_Exception e = true.
Proof. intros H. apply (lib_ok c w). now rewrite H. Qed.

Ltac run_lib :=
  match goal with
  | |- context [lib ?c ?w] =>
      let E := fresh "E" in
      let r := fresh "r" in
      let w' := fresh "w" in
      destruct (lib c w) as [r w'] eqn:E;
      destruct r as [?|?];
      [|rewrite (lib_Raise_is_Exception _ _ _ _ E)];
      cbn [fst snd lib_log world results probe_log]
  end.

Ltac probe_cases :=
  intros s;
  unfold try_except_Exception, call_lib, ret;
  rewrite ?bind_unfold; unfold call_lib;
  repeat (run_lib; rewrite ?bind_unfold; unfold call_lib;
          cbn [fst snd lib_log world results probe_log]);
  eexists; eexists;
  (split; [reflexivity|]);
  (split; [rewrite <- ?app_assoc; reflexivity|]);
  (split; [discriminate|reflexivity]).

Lemma check_postgres_collapses h p u pw : collapses_failures (check_postgres h p u pw).
Proof. unfold check_postgres. probe_cases. Qed.

Lemma check_mysql_collapses h p u pw : collapses_failures (check_mysql h p u pw).
Proof. unfold check_mysql. probe_cases. Qed.

Lemma check_mongodb_collapses h p u pw : collapses_failures (check_mongodb h p u pw).
Proof. unfold check_mongodb. probe_cases. Qed.

Lemma check_mssql_collapses h p u pw : collapses_failures (check_mssql h p u pw).
Proof. unfold check_mssql. probe_cases. Qed.

Lemma check_oracle_collapses h p u pw : collapses_failures (check_oracle h p u pw).
Proof. unfold check_oracle. probe_cases. Qed.

Lemma check_redis_collapses h p pw : collapses_failures (check_redis h p pw).
Proof. unfold check_redis. probe_cases. Qed.

Lemma check_methods_return db_type method h p u pw s :
  assoc db_type check_methods = Some method ->
  exists b, fst (method h p u pw s) = Return b.
Proof.
  intros H. apply check_methods_cases in H.
  destruct H as [[_ ->]|[[_ ->]|[[_ ->]|[[_ ->]|[_ ->]]]]].
  - destruct (check_postgres_collapses h p u pw s) as (b & _ & H & _); eauto.
  - destruct (check_mysql_collapses h p u pw s) as (b & _ & H & _); eauto.
  - destruct (check_mongodb_collapses h p u pw s) as (b & _ & H & _); eauto.
  - destruct (check_mssql_collapses h p u pw s) as (b & _ & H & _); eauto.
  - destruct (check_oracle_collapses h p u pw s) as (b & _ & H & _); eauto.
Qed.

End ProbeTotality.

(** ** The sweep over a well-formed configuration *)

Lemma has_key_getitem key v :
  has_key key v = true -> py_getitem v key = Return (field key v).
Proof.
  unfold has_key, field, py_getitem. destruct v; try discriminate.
  destruct (assoc key d); [reflexivity|discriminate].
Qed.

Lemma assoc_contains {A} key (d : list (string * A)) :
  existsb (String.eqb key) (keys d) = match assoc key d with Some _ => true | None => false end.
Proof.
  induction d as [|[k v] d IH]; simpl; [reflexivity|].
  rewrite (String.eqb_sym key k). destruct (String.eqb k key); [reflexivity|exact IH].
Qed.

Lemma py_contains_dict key d :
  py_contains key (VDict d) =
  Return (match assoc key d with Some _ => true | None => false end).
Proof. unfold py_contains. now rewrite assoc_contains. Qed.

Lemma completes_with_ret : completes_with (ret tt) [].
Proof.
  intros s; split; [reflexivity|]. exists []; simpl. now rewrite app_nil_r.
Qed.

Lemma completes_with_bind c k l1 l2 :
  completes_with c l1 -> completes_with k l2 ->
  completes_with (bind c (fun _ => k)) (l1 ++ l2).
Proof.
  intros Hc Hk s. rewrite bind_unfold.
  destruct (Hc s) as [Hr (e1 & L1 & M1)].
  destruct (c s) as [[[]|e] s1]; simpl in *; [|discriminate].
  destruct (Hk s1) as [Hr2 (e2 & L2 & M2)].
  split; [exact Hr2|].
  exists (e1 ++ e2). rewrite L2, L1, app_assoc, map_app, M1, M2. split; reflexivity.
Qed.

Lemma completes_with_for_each {A} (l : list A) body (f : A -> list attempt) :
  (forall x, In x l -> completes_with (body x) (f x)) ->
  completes_with (for_each l body) (flat_map f l).
Proof.
  induction l as [|x l IH]; intros H; simpl.
  - apply completes_with_ret.
  - apply completes_with_bind; [apply H; left; reflexivity|].
    apply IH. intros y Hy; apply H; right; exact Hy.
Qed.

Lemma flat_map_single {A B} (f : A -> B) (l : list A) :
  flat_map (fun x => [f x]) l = map f l.
Proof. induction l; simpl; congruence. Qed.

Section WellFormed.

Hypothesis lib_ok : lib_raises_Exception_only.

Lemma check_database_completes db_type inst cred :
  In db_type database_services ->
  has_key "host" inst = true -> has_key "port" inst = true ->
  credential_ok cred = true ->
  completes_with (check_database db_type inst cred)
    [mkAttempt db_type (field "host" inst) (field "port" inst)
       (Some (field "username" cred)) (field "password" cred)].
Proof.
  intros Hin Hh Hp Hc s.
  apply andb_prop in Hc as [Hu Hpw].
  destruct (check_methods_supported _ Hin) as [method Hm].
  unfold check_database. rewrite Hm.
  rewrite (has_key_getitem _ _ Hh), (has_key_getitem _ _ Hp),
    (has_key_getitem _ _ Hu), (has_key_getitem _ _ Hpw).
  rewrite !bind_lift_Return, bind_unfold. unfold invoke.
  pose proof (check_methods_quiet db_type method (field "host" inst) (field "port" inst)
                (field "username" cred) (field "password" cred) Hm s) as [_ Hq].
  destruct (check_methods_return lib_ok db_type method (field "host" inst)
              (field "port" inst) (field "username" cred) (field "password" cred) s Hm)
    as [b Hb].
  destruct (method _ _ _ _ s) as [r s1]. simpl in Hq, Hb. subst r.
  destruct b; simpl; (split; [reflexivity|]); eexists; rewrite Hq;
    (split; [reflexivity|reflexivity]).
Qed.

Lemma check_redis_password_completes inst password :
  has_key "host" inst = true -> has_key "port" inst = true ->
  completes_with (check_redis_password inst password)
    [mkAttempt "redis" (field "host" inst) (field "port" inst) None password].
Proof.
  intros Hh Hp s.
  unfold check_redis_password.
  rewrite (has_key_getitem _ _ Hh), (has_key_getitem _ _ Hp).
  rewrite !bind_lift_Return, bind_unfold. unfold invoke.
  pose proof (check_redis_quiet (field "host" inst) (field "port" inst) password s) as [_ Hq].
  destruct (check_redis_collapses lib_ok (field "host" inst) (field "port" inst) password s)
    as (b & _ & Hb & _).
  destruct (check_redis _ _ _ s) as [r s1]. simpl in Hq, Hb. subst r.
  destruct b; simpl; (split; [reflexivity|]); eexists; rewrite Hq;
    (split; [reflexivity|reflexivity]).
Qed.

Lemma check_db_type_completes d db_type :
  In db_type database_services ->
  entry_ok db_instance_ok d db_type = true ->
  completes_with (check_db_type (VDict d) db_type) (db_attempts d db_type).
Proof.
  intros Hin Hok. unfold check_db_type, db_attempts, entry_ok in *.
  unfold py_contains, py_getitem at 1. rewrite assoc_contains.
  destruct (assoc db_type d) as [inst|]; [|intros s; apply completes_with_ret].
  unfold db_instance_ok in Hok.
  apply andb_prop in Hok as [Hhp Hc]. apply andb_prop in Hhp as [Hh Hp].
  destruct (field "default_credentials" inst) as [ | | | |creds| ] eqn:Hf; try discriminate.
  apply andb_prop in Hc as [Hk Hc].
  intros s. rewrite !bind_lift_Return.
  rewrite (has_key_getitem _ _ Hk), Hf, bind_lift_Return.
  unfold candidates. rewrite Hf.
  cbn [py_iter]. rewrite bind_lift_Return.
  rewrite <- flat_map_single.
  apply completes_with_for_each.
  intros cred Hcred. apply check_database_completes; try assumption.
  rewrite forallb_forall in Hc. apply Hc, Hcred.
Qed.

Lemma check_redis_section_completes d :
  entry_ok redis_instance_ok d "redis" = true ->
  completes_with (check_redis_section (VDict d)) (redis_attempts d).
Proof.
  intros Hok. unfold check_redis_section, redis_attempts, entry_ok in *.
  unfold py_contains, py_getitem at 1. rewrite assoc_contains.
  destruct (assoc "redis" d) as [inst|]; [|intros s; apply completes_with_ret].
  unfold redis_instance_ok in Hok.
  apply andb_prop in Hok as [Hhp Hc]. apply andb_prop in Hhp as [Hh Hp].
  destruct (field "default_passwords" inst) as [ | | | |pws| ] eqn:Hf; try discriminate.
  intros s. rewrite !bind_lift_Return.
  rewrite (has_key_getitem _ _ Hc), Hf, bind_lift_Return.
  unfold candidates. rewrite Hf.
  cbn [py_iter]. rewrite bind_lift_Return.
  rewrite <- flat_map_single.
  apply completes_with_for_each.
  intros pw _. apply check_redis_password_completes; assumption.
Qed.

Lemma sweep_completes config :
  well_formed config = true ->
  completes_with
    (bind (for_each database_services (check_db_type config))
       (fun _ => check_redis_section config))
    (enumerate config).
Proof.
  intros Hwf. destruct config as [ | | | | |d]; try discriminate.
  unfold well_formed in Hwf. apply andb_prop in Hwf as [Hdb Hr].
  unfold enumerate.
  apply completes_with_bind.
  - apply completes_with_for_each. intros t Ht.
    apply check_db_type_completes; [exact Ht|].
    rewrite forallb_forall in Hdb. apply Hdb, Ht.
  - apply check_redis_section_completes, Hr.
Qed.

(** The whole sweep: it returns the list [self.results], the attempts made
    are the enumeration, and the new Findings are those of the successful
    events. *)
Lemma run_checks_well_formed config s :
  well_formed config = true ->
  exists evs,
    fst (run_checks config s) = Return self_results /\
    probe_log (snd (run_checks config s)) = probe_log s ++ evs /\
    map attempt_of evs = enumerate config /\
    results (snd (run_checks config s)) = results s ++ findings_of evs.
Proof.
  intros Hwf.
  destruct (run_checks_extends config s) as (evs & L & R & _).
  exists evs. split; [|split; [exact L|split; [|exact R]]].
  - pose proof (sweep_completes config Hwf s) as [Hr _].
    unfold run_checks. rewrite bind_unfold.
    revert Hr. rewrite bind_unfold.
    destruct (for_each database_services (check_db_type config) s) as [[[]|e] s1];
      [|discriminate].
    intros Hr. rewrite bind_unfold.
    destruct (check_redis_section config s1) as [[[]|e] s2]; [|discriminate].
    reflexivity.
  - pose proof (sweep_completes config Hwf s) as [_ (evs' & L' & M')].
    assert (Hs : probe_log (snd (run_checks config s)) =
                 probe_log (snd (bind (for_each database_services (check_db_type config))
                                   (fun _ => check_redis_section config) s))).
    { unfold run_checks. rewrite !bind_unfold.
      destruct (for_each database_services (check_db_type config) s) as [[[]|e] s1];
        [|reflexivity].
      rewrite !bind_unfold.
      destruct (check_redis_section config s1) as [[[]|e] s2]; reflexivity. }
    rewrite Hs, L' in L. apply app_inv_head in L. subst evs'. exact M'.
Qed.

End WellFormed.

(** ** An instance without [host] or [port] *)

Lemma services_before_split service l :
  In service l -> exists rest, l = services_before service l ++ service :: rest.
Proof.
  induction l as [|x l IH]; intros H; [destruct H|]. simpl.
  destruct (String.eqb_spec x service) as [->|Hne].
  - exists l; reflexivity.
  - destruct H as [->|H]; [congruence|].
    destruct (IH H) as [rest Hr]. exists rest. simpl. now rewrite <- Hr.
Qed.

(** ** Runs with fixed probe outcomes *)

Lemma uniform_ret {A} (a : A) : uniform (ret a).
Proof. intros s1 s2; split; [reflexivity|]. exists []; simpl. now rewrite !app_nil_r. Qed.

Lemma uniform_lift {A} (r : pyresult A) : uniform (lift r).
Proof. intros s1 s2; split; [reflexivity|]. exists []; simpl. now rewrite !app_nil_r. Qed.

Lemma uniform_raise {A} e : uniform (fun s => (@Raise A e, s)).
Proof. intros s1 s2; split; [reflexivity|]. exists []; simpl. now rewrite !app_nil_r. Qed.

Lemma uniform_append_result f : uniform (append_result f).
Proof. intros s1 s2; split; [reflexivity|]. exists [f]; simpl. split; reflexivity. Qed.

Lemma uniform_bind {A B} (c : M A) (k : A -> M B) :
  uniform c -> (forall a, uniform (k a)) -> uniform (bind c k).
Proof.
  intros Hc Hk s1 s2. rewrite !bind_unfold.
  destruct (Hc s1 s2) as [Hf (d1 & D1 & D2)].
  destruct (c s1) as [[a1|e1] t1], (c s2) as [[a2|e2] t2]; simpl in *;
    try discriminate.
  - injection Hf as <-.
    destruct (Hk a1 t1 t2) as [Hf' (d2 & E1 & E2)].
    split; [exact Hf'|]. exists (d1 ++ d2).
    rewrite E1, E2, D1, D2, !app_assoc. split; reflexivity.
  - injection Hf as <-. split; [reflexivity|]. exists d1. split; assumption.
Qed.

Lemma uniform_try {A} (body handler : M A) :
  uniform body -> uniform handler -> uniform (try_except_Exception body handler).
Proof.
  intros Hb Hh s1 s2. unfold try_except_Exception.
  destruct (Hb s1 s2) as [Hf (d1 & D1 & D2)].
  destruct (body s1) as [[a1|e1] t1], (body s2) as [[a2|e2] t2]; simpl in *;
    try discriminate.
  - split; [exact Hf|]. exists d1. split; assumption.
  - injection Hf as <-. destruct (is_Exception e1); simpl.
    + destruct (Hh t1 t2) as [Hf' (d2 & E1 & E2)].
      split; [exact Hf'|]. exists (d1 ++ d2).
      rewrite E1, E2, D1, D2, !app_assoc. split; reflexivity.
    + split; [reflexivity|]. exists d1. split; assumption.
Qed.

Lemma uniform_for_each {A} (l : list A) (body : A -> M unit) :
  (forall x, uniform (body x)) -> uniform (for_each l body).
Proof.
  intros H. induction l as [|x l IH]; simpl.
  - apply uniform_ret.
  - apply uniform_bind; [apply H|intros _; exact IH].
Qed.

Lemma uniform_invoke service host port username password method :
  uniform method -> uniform (invoke service host port username password method).
Proof.
  intros H s1 s2. unfold invoke.
  destruct (H s1 s2) as [Hf (d & D1 & D2)].
  destruct (method s1) as [r1 t1], (method s2) as [r2 t2]; simpl in *.
  split; [exact Hf|]. exists d. split; assumption.
Qed.

Section FixedOutcomes.

Hypothesis lib_fixed : lib_outcomes_fixed.

Lemma uniform_call_lib c : uniform (call_lib c).
Proof.
  intros s1 s2. unfold call_lib.
  pose proof (lib_fixed c (world s1) (world s2)) as H.
  destruct (lib c (world s1)) as [r1 w1], (lib c (world s2)) as [r2 w2]; simpl in *.
  split; [exact H|]. exists []. now rewrite !app_nil_r.
Qed.

Ltac uniform_steps :=
  repeat first
    [ apply uniform_try
    | apply uniform_bind; [|intros ?]
    | apply uniform_call_lib
    | apply uniform_ret
    | apply uniform_lift
    | apply uniform_append_result ].

Lemma check_methods_uniform db_type method h p u pw :
  assoc db_type check_methods = Some method -> uniform (method h p u pw).
Proof.
  intros H. apply check_methods_cases in H.
  destruct H as [[_ ->]|[[_ ->]|[[_ ->]|[[_ ->]|[_ ->]]]]];
    [unfold check_postgres|unfold check_mysql|unfold check_mongodb
    |unfold check_mssql|unfold check_oracle]; uniform_steps.
Qed.

Lemma check_redis_uniform h p pw : uniform (check_redis h p pw).
Proof. unfold check_redis. uniform_steps. Qed.

Lemma check_database_uniform db_type config cred :
  uniform (check_database db_type config cred).
Proof.
  unfold check_database.
  destruct (assoc db_type check_methods) as [method|] eqn:Hm; [|apply uniform_ret].
  do 4 (apply uniform_bind; [apply uniform_lift|intros ?]).
  apply uniform_bind.
  - apply uniform_invoke. eapply check_methods_uniform; exact Hm.
  - intros [|]; uniform_steps.
Qed.

Lemma check_db_type_uniform config db_type : uniform (check_db_type config db_type).
Proof.
  unfold check_db_type.
  apply uniform_bind; [apply uniform_lift|intros [|]]; [|apply uniform_ret].
  do 3 (apply uniform_bind; [apply uniform_lift|intros ?]).
  apply uniform_for_each. intros cred. apply check_database_uniform.
Qed.

Lemma check_redis_password_uniform inst pw : uniform (check_redis_password inst pw).
Proof.
  unfold check_redis_password.
  do 2 (apply uniform_bind; [apply uniform_lift|intros ?]).
  apply uniform_bind.
  - apply uniform_invoke, check_redis_uniform.
  - intros [|]; uniform_steps.
Qed.

Lemma check_redis_section_uniform config : uniform (check_redis_section config).
Proof.
  unfold check_redis_section.
  apply uniform_bind; [apply uniform_lift|intros [|]]; [|apply uniform_ret].
  do 3 (apply uniform_bind; [apply uniform_lift|intros ?]).
  apply uniform_for_each. intros pw. apply check_redis_password_uniform.
Qed.

Lemma sweep_uniform config :
  uniform (bind (for_each database_services (check_db_type config))
             (fun _ => check_redis_section config)).
Proof.
  apply uniform_bind.
  - apply uniform_for_each. intros t. apply check_db_type_uniform.
  - intros _. apply check_redis_section_uniform.
Qed.

(** From any two states a run either raises the same exception or returns
    the list [self.results], and appends the same Findings. *)
Lemma run_checks_fixed config s1 s2 :
  exists delta,
    results (snd (run_checks config s1)) = results s1 ++ delta /\
    results (snd (run_checks config s2)) = results s2 ++ delta /\
    ((fst (run_checks config s1) = Return self_results /\
      fst (run_checks config s2) = Return self_results) \/
     (exists e, fst (run_checks config s1) = Raise e /\
                fst (run_checks config s2) = Raise e)).
Proof.
  destruct (sweep_uniform config s1 s2) as [Hf (delta & D1 & D2)].
  exists delta. unfold run_checks.
  revert Hf D1 D2. rewrite !bind_unfold.
  destruct (for_each database_services (check_db_type config) s1) as [[[]|e1] t1],
           (for_each database_services (check_db_type config) s2) as [[[]|e2] t2];
    rewrite ?bind_unfold;
    try (destruct (check_redis_section config t1) as [[[]|e1'] u1]);
    try (destruct (check_redis_section config t2) as [[[]|e2'] u2]);
    simpl; intros Hf D1 D2; try discriminate;
    rewrite D1, D2; repeat split;
    first [ left; split; reflexivity
          | right; eexists; split; [reflexivity|congruence] ].
Qed.

End FixedOutcomes.

(** ** Reporting in [main] *)

Lemma report_finding_of ev s : report (finding_of ev) s = (Return tt, s).
Proof.
  unfold report, finding_of. destruct (pe_username ev); reflexivity.
Qed.

Lemma report_findings evs s : for_each (findings_of evs) report s = (Return tt, s).
Proof.
  unfold findings_of. induction (filter succeeded evs) as [|ev l IH]; simpl.
  - reflexivity.
  - rewrite bind_unfold, report_finding_of. exact IH.
Qed.

Lemma run_checks_fresh_findings config s :
  results s = [] ->
  exists evs, results (snd (run_checks config s)) = findings_of evs.
Proof.
  intros Hs.
  destruct (run_checks_extends config s) as (evs & _ & R & _).
  exists evs. rewrite R, Hs. reflexivity.
Qed.

(** ** Service names the sweep does not know *)

Lemma for_each_ext {A} (l : list A) (body body' : A -> M unit) s :
  (forall x s', In x l -> body x s' = body' x s') ->
  for_each l body s = for_each l body' s.
Proof.
  revert s. induction l as [|x l IH]; intros s H; simpl; [reflexivity|].
  rewrite !bind_unfold, (H x s (or_introl eq_refl)).
  destruct (body' x s) as [[[]|e] s1]; [|reflexivity].
  apply IH. intros y s' Hy. apply H. right; exact Hy.
Qed.

Lemma check_db_type_agree d d' db_type s :
  assoc db_type d = assoc db_type d' ->
  check_db_type (VDict d) db_type s = check_db_type (VDict d') db_type s.
Proof.
  intros H. unfold check_db_type, py_contains, py_getitem at 1 3.
  rewrite !assoc_contains, H. reflexivity.
Qed.

Lemma check_redis_section_agree d d' s :
  assoc "redis" d = assoc "redis" d' ->
  check_redis_section (VDict d) s = check_redis_section (VDict d') s.
Proof.
  intros H. unfold check_redis_section, py_contains, py_getitem at 1 3.
  rewrite !assoc_contains, H. reflexivity.
Qed.

Lemma run_checks_agree d d' s :
  (forall service, In service sweep_order -> assoc service d = assoc service d') ->
  run_checks (VDict d) s = run_checks (VDict d') s.
Proof.
  intros H. unfold run_checks. rewrite !bind_unfold.
  rewrite (for_each_ext database_services (check_db_type (VDict d))
             (check_db_type (VDict d')) s).
  - destruct (for_each database_services (check_db_type (VDict d')) s) as [[[]|e] s1];
      [|reflexivity].
    rewrite !bind_unfold, (check_redis_section_agree d d' s1); [reflexivity|].
    apply (H "redis"). unfold sweep_order. in_list.
  - intros t s' Ht. apply check_db_type_agree, (H t).
    unfold sweep_order. unfold database_services in Ht. in_cases Ht.
Qed.

Lemma check_methods_unsupported db_type :
  ~ In db_type database_services -> assoc db_type check_methods = None.
Proof.
  intros H. destruct (assoc db_type check_methods) as [m|] eqn:E; [|reflexivity].
  exfalso. apply H. eapply check_methods_In; exact E.
Qed.

(** ** The calls of [check_redis] *)

Lemma check_redis_calls host port password s :
  exists calls,
    lib_log (snd (check_redis host port password s)) = lib_log s ++ calls /\
    ((exists e, calls = [(RedisInit host port password 3, Raise e)]) \/
     (exists r o, calls = [(RedisInit host port password 3, Return r); (RedisPing r, o)])) /\
    (fst (check_redis host port password s) = Return true <->
     exists r r', calls = [(RedisInit host port password 3, Return r);
                           (RedisPing r, Return r')]).
Proof.
  unfold check_redis, try_except_Exception, bind, call_lib, ret.
  destruct (lib (RedisInit host port password 3) (world s)) as [[r|e] w1];
    cbn [world lib_log results probe_log].
  - destruct (lib (RedisPing r) w1) as [[r'|e] w2].
    + eexists. cbn [fst snd lib_log]. rewrite <- app_assoc. split; [reflexivity|].
      split; [right; do 2 eexists; reflexivity|].
      split; [intros _; do 2 eexists; reflexivity|reflexivity].
    + eexists. destruct (is_Exception e); cbn [fst snd lib_log];
        (rewrite <- app_assoc; split; [reflexivity|]);
        (split; [right; do 2 eexists; reflexivity|]);
        (split; [discriminate|intros (r1 & r2 & [=])]).
  - eexists. destruct (is_Exception e); cbn [fst snd lib_log];
      (split; [reflexivity|]);
      (split; [left; eexists; reflexivity|]);
      (split; [discriminate|intros (r1 & r2 & [=])]).
Qed.

(** ** What a run that returns has done *)

Lemma getitem_Return config key v :
  py_getitem config key = Return v -> exists d, config = VDict d /\ assoc key d = Some v.
Proof.
  unfold py_getitem. destruct config; try discriminate.
  destruct (assoc key d) eqn:E; [|discriminate].
  intros [= <-]. eauto.
Qed.

Lemma getitem_field v key x : py_getitem v key = Return x -> field key v = x.
Proof. unfold field. now intros ->. Qed.

Lemma attempts_made_refl s : attempts_made [] s s.
Proof. exists []. now rewrite app_nil_r. Qed.

Lemma attempts_made_trans l1 l2 s s1 s2 :
  attempts_made l1 s s1 -> attempts_made l2 s1 s2 -> attempts_made (l1 ++ l2) s s2.
Proof.
  intros (e1 & L1 & M1) (e2 & L2 & M2). exists (e1 ++ e2).
  rewrite L2, L1, app_assoc, map_app, M1, M2. split; reflexivity.
Qed.

Lemma for_each_returned {A} (l : list A) body (f : A -> list attempt) s :
  (forall x s', In x l -> fst (body x s') = Return tt ->
                attempts_made (f x) s' (snd (body x s'))) ->
  fst (for_each l body s) = Return tt ->
  attempts_made (flat_map f l) s (snd (for_each l body s)).
Proof.
  revert s. induction l as [|x l IH]; intros s H; simpl.
  - intros _. apply attempts_made_refl.
  - rewrite bind_unfold.
    pose proof (H x s (or_introl eq_refl)) as Hx.
    destruct (body x s) as [[[]|e] s1]; [|discriminate].
    intros Hr. eapply attempts_made_trans; [apply Hx; reflexivity|].
    apply IH; [|exact Hr]. intros y s' Hy. apply H. right; exact Hy.
Qed.

Lemma check_database_returned db_type inst cred s :
  In db_type database_services ->
  fst (check_database db_type inst cred s) = Return tt ->
  attempts_made
    [mkAttempt db_type (field "host" inst) (field "port" inst)
       (Some (field "username" cred)) (field "password" cred)]
    s (snd (check_database db_type inst cred s)).
Proof.
  intros Hin. destruct (check_methods_supported _ Hin) as [method Hm].
  unfold check_database. rewrite Hm.
  do 4 (step_lift; [|discriminate]).
  rewrite (getitem_field _ _ _ E), (getitem_field _ _ _ E0),
    (getitem_field _ _ _ E1), (getitem_field _ _ _ E2).
  rewrite bind_unfold. unfold invoke.
  pose proof (check_methods_quiet db_type method a a0 a1 a2 Hm s) as [_ Hq].
  destruct (method a a0 a1 a2 s) as [r s1]. simpl in Hq.
  destruct r as [[|]|e]; [| |discriminate]; intros _;
    eexists; simpl; rewrite Hq; split; reflexivity.
Qed.

Lemma check_redis_password_returned inst password s :
  fst (check_redis_password inst password s) = Return tt ->
  attempts_made
    [mkAttempt "redis" (field "host" inst) (field "port" inst) None password]
    s (snd (check_redis_password inst password s)).
Proof.
  unfold check_redis_password.
  do 2 (step_lift; [|discriminate]).
  rewrite (getitem_field _ _ _ E), (getitem_field _ _ _ E0).
  rewrite bind_unfold. unfold invoke.
  pose proof (check_redis_quiet a a0 password s) as [_ Hq].
  destruct (check_redis a a0 password s) as [r s1]. simpl in Hq.
  destruct r as [[|]|e]; [| |discriminate]; intros _;
    eexists; simpl; rewrite Hq; split; reflexivity.
Qed.

Lemma check_db_type_returned config db_type s :
  In db_type database_services ->
  fst (check_db_type config db_type s) = Return tt ->
  attempts_made
    (match config with VDict d => db_attempts d db_type | _ => [] end)
    s (snd (check_db_type config db_type s)).
Proof.
  intros Hin. unfold check_db_type.
  step_lift; [|discriminate].
  destruct a; [|intros _; simpl; destruct config; try apply attempts_made_refl].
  - step_lift; [|discriminate].
    apply getitem_Return in E0 as (d & -> & Hd).
    do 2 (step_lift; [|discriminate]).
    unfold db_attempts, candidates. rewrite Hd, (getitem_field _ _ _ E0), E1.
    rewrite <- flat_map_single. apply for_each_returned.
    intros cred s' _. apply check_database_returned, Hin.
  - unfold db_attempts. rewrite py_contains_dict in E.
    destruct (assoc db_type d); [discriminate|apply attempts_made_refl].
Qed.

Lemma check_redis_section_returned config s :
  fst (check_redis_section config s) = Return tt ->
  attempts_made
    (match config with VDict d => redis_attempts d | _ => [] end)
    s (snd (check_redis_section config s)).
Proof.
  unfold check_redis_section.
  step_lift; [|discriminate].
  destruct a; [|intros _; simpl; destruct config; try apply attempts_made_refl].
  - step_lift; [|discriminate].
    apply getitem_Return in E0 as (d & -> & Hd).
    do 2 (step_lift; [|discriminate]).
    unfold redis_attempts, candidates. rewrite Hd, (getitem_field _ _ _ E0), E1.
    rewrite <- flat_map_single. apply for_each_returned.
    intros pw s' _. apply check_redis_password_returned.
  - unfold redis_attempts. rewrite py_contains_dict in E.
    destruct (assoc "redis" d); [discriminate|apply attempts_made_refl].
Qed.

(** A run that returns has made the attempts of the enumeration, in this
    order, and returns the Findings of those that succeeded. *)
Lemma run_checks_returned config s found :
  fst (run_checks config s) = Return found ->
  exists evs,
    probe_log (snd (run_checks config s)) = probe_log s ++ evs /\
    map attempt_of evs = enumerate config /\
    contents found (snd (run_checks config s)) = results s ++ findings_of evs.
Proof.
  intros Hr.
  destruct (run_checks_extends config s) as (evs & L & R & _).
  exists evs. split; [exact L|]. split.
  - assert (Ha : attempts_made (enumerate config) s (snd (run_checks config s))).
    { revert Hr. unfold run_checks. rewrite bind_unfold.
      pose proof (for_each_returned database_services (check_db_type config)
                    (fun t => match config with VDict d => db_attempts d t | _ => [] end) s
                    (fun t s' Ht => check_db_type_returned config t s' Ht)) as H1.
      destruct (for_each database_services (check_db_type config) s) as [[[]|e] s1];
        [|discriminate].
      rewrite bind_unfold.
      pose proof (check_redis_section_returned config s1) as H2.
      destruct (check_redis_section config s1) as [[[]|e] s2]; [|discriminate].
      intros _. simpl snd in *.
      specialize (H1 eq_refl). specialize (H2 eq_refl).
      pose proof (attempts_made_trans _ _ _ _ _ H1 H2) as H.
      destruct config; exact H. }
    destruct Ha as (evs' & L' & M'). rewrite L in L'.
    apply app_inv_head in L'. now subst evs'.
  - rewrite contents_results. exact R.
Qed.

(** ** Auxiliary facts for the main results *)

Lemma finding_of_attempt ev : finding_of ev = attempt_finding (attempt_of ev).
Proof. reflexivity. Qed.

Lemma findings_of_select evs :
  findings_of evs =
  map attempt_finding (select (map attempt_of evs) (map succeeded evs)).
Proof.
  unfold findings_of. induction evs as [|ev evs IH]; simpl; [reflexivity|].
  destruct (succeeded ev); simpl; [rewrite IH; reflexivity|exact IH].
Qed.

Lemma assoc_app_skip {A} key k (v : A) d1 d2 :
  k <> key -> assoc key (d1 ++ (k, v) :: d2) = assoc key (d1 ++ d2).
Proof.
  intros Hne. induction d1 as [|[k' v'] d1 IH]; simpl.
  - destruct (String.eqb_spec k key); [contradiction|reflexivity].
  - now rewrite IH.
Qed.

Lemma event_ok_keys ev :
  event_ok ev ->
  (pe_service ev = "redis" -> keys (finding_of ev) = redis_finding_keys) /\
  (pe_service ev <> "redis" ->
   In (pe_service ev) database_services /\ keys (finding_of ev) = database_finding_keys) /\
  (In "username" (keys (finding_of ev)) <-> pe_service ev <> "redis").
Proof.
  unfold event_ok, finding_of. destruct (pe_username ev) as [u|]; intros H.
  - assert (Hne : pe_service ev <> "redis").
    { simpl in H. intros E. rewrite E in H.
      repeat (destruct H as [H|H]; [discriminate|]). destruct H. }
    split; [intros E; contradiction|].
    split; [intros _; split; [exact H|reflexivity]|].
    split; [intros _; exact Hne|intros _; in_list].
  - split; [intros _; reflexivity|].
    split; [intros Hne; contradiction|].
    split; [|intros Hne; contradiction].
    simpl. intros [E|[E|[E|[E|[]]]]]; discriminate.
Qed.

(** ** Main results *)

(** C1. During [run_checks], from any configuration and any state, the
    Findings appended to [self.results] are exactly those of the probe
    invocations that returned [True], in the order of the invocations: an
    invocation that returned [True] contributes its Finding, any other
    invocation contributes nothing. *)
Theorem run_checks_finding_iff_probe_true config s :
  exists evs new,
    probe_log (snd (run_checks config s)) = probe_log s ++ evs /\
    results (snd (run_checks config s)) = results s ++ new /\
    new = map finding_of (filter succeeded evs) /\
    (forall f, In f new <-> exists ev, In ev evs /\ pe_outcome ev = Return true /\ f = finding_of ev).
Proof.
  destruct (run_checks_extends config s) as (evs & L & R & _).
  exists evs, (findings_of evs). repeat split; try assumption.
  - unfold findings_of. rewrite in_map_iff.
    intros (ev & <- & Hin). apply filter_In in Hin as [Hin Hs].
    exists ev. repeat split; [exact Hin|].
    unfold succeeded in Hs. destruct (pe_outcome ev) as [[|]|]; try discriminate. reflexivity.
  - intros (ev & Hin & Ho & ->). unfold findings_of. apply in_map.
    apply filter_In. split; [exact Hin|]. unfold succeeded. now rewrite Ho.
Qed.

(** C2. For every configuration and every behaviour of the client
    libraries, when [run_checks] returns, the probes it invoked are those
    of the enumeration, in its order (database types in the order of the
    sweep, candidates of a type in list order, Redis passwords last), and
    the list it returns holds, after the Findings that were there before,
    those of the successful ones, in that same order. *)
Theorem run_checks_findings_in_enumeration_order config s found :
  fst (run_checks config s) = Return found ->
  exists evs,
    probe_log (snd (run_checks config s)) = probe_log s ++ evs /\
    map attempt_of evs = enumerate config /\
    contents found (snd (run_checks config s)) =
      results s ++ map attempt_finding (select (enumerate config) (map succeeded evs)).
Proof.
  intros Hr.
  destruct (run_checks_returned config s found Hr) as (evs & L & E & R).
  exists evs. split; [exact L|]. split; [exact E|].
  rewrite R, findings_of_select, E. reflexivity.
Qed.

(** C5. Over a well-formed configuration, with client libraries that raise
    only [Exception]s, [run_checks] returns, the probes it invoked are
    exactly the enumeration of every configured instance with every one of
    its candidates, whatever the outcomes, and every success has its own
    Finding. *)
Theorem run_checks_explores_cartesian_product config s :
  well_formed config = true ->
  lib_raises_Exception_only ->
  exists evs,
    fst (run_checks config s) = Return self_results /\
    probe_log (snd (run_checks config s)) = probe_log s ++ evs /\
    map attempt_of evs = enumerate config /\
    results (snd (run_checks config s)) = results s ++ map finding_of (filter succeeded evs) /\
    length (results (snd (run_checks config s))) =
      (length (results s) + length (filter succeeded evs))%nat.
Proof.
  intros Hwf Hlib.
  destruct (run_checks_well_formed Hlib config s Hwf) as (evs & Hr & L & E & R).
  exists evs. repeat split; try assumption.
  rewrite R, length_app. unfold findings_of. now rewrite length_map.
Qed.

Lemma getitem_missing inst key other x :
  py_getitem inst other = Return x ->
  has_key key inst = false ->
  py_getitem inst key = Raise (KeyError key).
Proof.
  intros Hg Hk. apply getitem_Return in Hg as (i & -> & _).
  unfold has_key in Hk. unfold py_getitem.
  destruct (assoc key i); [discriminate|reflexivity].
Qed.

Lemma check_database_missing_exact db_type inst cred other x s :
  In db_type database_services ->
  py_getitem inst other = Return x ->
  has_key "host" inst = false \/ has_key "port" inst = false ->
  check_database db_type inst cred s = (Raise (KeyError (missing_field inst)), s).
Proof.
  intros Hin Hg Hmiss.
  destruct (check_methods_supported _ Hin) as [method Hm].
  unfold check_database, missing_field. rewrite Hm.
  destruct (has_key "host" inst) eqn:Hh.
  - destruct Hmiss as [Hmiss|Hmiss]; [discriminate|].
    rewrite (has_key_getitem _ _ Hh), bind_lift_Return,
      (getitem_missing inst "port" other x Hg Hmiss), bind_lift_Raise.
    reflexivity.
  - rewrite (getitem_missing inst "host" other x Hg Hh), bind_lift_Raise. reflexivity.
Qed.

Lemma check_redis_password_missing_exact inst password other x s :
  py_getitem inst other = Return x ->
  has_key "host" inst = false \/ has_key "port" inst = false ->
  check_redis_password inst password s = (Raise (KeyError (missing_field inst)), s).
Proof.
  intros Hg Hmiss. unfold check_redis_password, missing_field.
  destruct (has_key "host" inst) eqn:Hh.
  - destruct Hmiss as [Hmiss|Hmiss]; [discriminate|].
    rewrite (has_key_getitem _ _ Hh), bind_lift_Return,
      (getitem_missing inst "port" other x Hg Hmiss), bind_lift_Raise.
    reflexivity.
  - rewrite (getitem_missing inst "host" other x Hg Hh), bind_lift_Raise. reflexivity.
Qed.

Lemma visit_database config db_type :
  In db_type database_services -> visit config db_type = check_db_type config db_type.
Proof.
  unfold database_services. simpl.
  intros [<-|[<-|[<-|[<-|[<-|[]]]]]]; reflexivity.
Qed.

Lemma visit_missing_field d service inst candidates c cs s :
  In service sweep_order ->
  assoc service d = Some inst ->
  has_key "host" inst = false \/ has_key "port" inst = false ->
  py_getitem inst (candidates_key service) = Return candidates ->
  py_iter candidates = Return (c :: cs) ->
  visit (VDict d) service s = (Raise (KeyError (missing_field inst)), s).
Proof.
  intros Hin Hd Hmiss Hc Hi.
  change sweep_order with (database_services ++ ["redis"]) in Hin.
  apply in_app_or in Hin. destruct Hin as [Hin|[<-|[]]].
  - assert (Hk : candidates_key service = "default_credentials").
    { unfold database_services in Hin; simpl in Hin.
      destruct Hin as [<-|[<-|[<-|[<-|[<-|[]]]]]]; reflexivity. }
    rewrite Hk in Hc. rewrite (visit_database _ _ Hin).
    unfold check_db_type. rewrite py_contains_dict, Hd, bind_lift_Return.
    unfold py_getitem at 1. rewrite Hd, bind_lift_Return, Hc, bind_lift_Return,
      Hi, bind_lift_Return.
    simpl for_each. rewrite bind_unfold.
    rewrite (check_database_missing_exact service inst c "default_credentials"
               candidates s Hin Hc Hmiss).
    reflexivity.
  - change (visit (VDict d) "redis") with (check_redis_section (VDict d)).
    change (candidates_key "redis") with "default_passwords" in Hc.
    unfold check_redis_section. rewrite py_contains_dict, Hd, bind_lift_Return.
    unfold py_getitem at 1. rewrite Hd, bind_lift_Return, Hc, bind_lift_Return,
      Hi, bind_lift_Return.
    simpl for_each. rewrite bind_unfold.
    rewrite (check_redis_password_missing_exact inst c "default_passwords"
               candidates s Hc Hmiss).
    reflexivity.
Qed.

Lemma run_checks_as_visits config s :
  run_checks config s =
  bind (for_each sweep_order (visit config)) (fun _ => ret self_results) s.
Proof.
  unfold run_checks. change sweep_order with (database_services ++ ["redis"]).
  rewrite !bind_unfold, for_each_app, bind_unfold.
  rewrite (for_each_ext database_services (visit config) (check_db_type config) s)
    by (intros t s' Ht; now rewrite (visit_database config t Ht)).
  destruct (for_each database_services (check_db_type config) s) as [[[]|e] s1];
    [|reflexivity].
  simpl for_each. rewrite !bind_unfold.
  change (visit config "redis") with (check_redis_section config).
  destruct (check_redis_section config s1) as [[[]|e] s2]; reflexivity.
Qed.

Lemma visit_extends config service : preserves (extends [service]) (visit config service).
Proof.
  unfold visit. destruct (String.eqb_spec service "redis") as [->|_].
  - apply check_redis_section_extends.
  - apply check_db_type_extends.
Qed.

Lemma for_each_visits_extends config (services : list string) :
  preserves (extends services) (for_each services (visit config)).
Proof.
  apply (preserves_for_each _ (extends_refl _) (extends_trans _)).
  intros t Ht s. apply (extends_mono [t]); [|apply visit_extends].
  intros x [<-|[]]; exact Ht.
Qed.

(** C3 (as amended). If a configured service has at least one candidate
    but lacks [host] or [port], [run_checks] raises.  It does what the
    sweep does for the services visited before that one and stops there:
    when these return, it raises [KeyError] for the missing field ([host],
    or [port] when only [port] is missing) at the first candidate of the
    service, before any probe for it; when one of them raises, that is the
    exception of the run.  The probes invoked all belong to the services
    visited before; none is invoked when there are none before. *)
Theorem run_checks_missing_field_raises config service inst candidates c cs s :
  In service sweep_order ->
  py_getitem config service = Return inst ->
  has_key "host" inst = false \/ has_key "port" inst = false ->
  py_getitem inst (candidates_key service) = Return candidates ->
  py_iter candidates = Return (c :: cs) ->
  run_checks config s =
    (match fst (for_each (services_before service sweep_order) (visit config) s) with
     | Return _ => Raise (KeyError (missing_field inst))
     | Raise e => Raise e
     end,
     snd (for_each (services_before service sweep_order) (visit config) s)) /\
  exists evs,
    probe_log (snd (run_checks config s)) = probe_log s ++ evs /\
    Forall (fun ev => In (pe_service ev) (services_before service sweep_order)) evs.
Proof.
  intros Hin Hg Hmiss Hc Hi.
  apply getitem_Return in Hg as (d & -> & Hd).
  assert (Hrun :
    run_checks (VDict d) s =
    (match fst (for_each (services_before service sweep_order) (visit (VDict d)) s) with
     | Return _ => Raise (KeyError (missing_field inst))
     | Raise e => Raise e
     end,
     snd (for_each (services_before service sweep_order) (visit (VDict d)) s))).
  { destruct (services_before_split _ _ Hin) as [rest Hsplit].
    rewrite run_checks_as_visits, bind_unfold.
    replace (for_each sweep_order (visit (VDict d)) s)
      with (for_each (services_before service sweep_order ++ service :: rest)
              (visit (VDict d)) s)
      by (rewrite <- Hsplit; reflexivity).
    rewrite for_each_app, bind_unfold.
    destruct (for_each (services_before service sweep_order) (visit (VDict d)) s)
      as [[[]|e] s1]; [|reflexivity].
    simpl for_each. rewrite bind_unfold.
    rewrite (visit_missing_field d service inst candidates c cs s1 Hin Hd Hmiss Hc Hi).
    reflexivity. }
  split; [exact Hrun|].
  rewrite Hrun. cbn [snd].
  destruct (for_each_visits_extends (VDict d) (services_before service sweep_order) s)
    as (evs & L & _ & F).
  exists evs. split; [exact L|].
  eapply Forall_impl; [|exact F]. intros ev [H _]; exact H.
Qed.

Lemma enumerate_database_In d db_type inst cred :
  In db_type database_services ->
  assoc db_type d = Some inst ->
  In cred (candidates "default_credentials" inst) ->
  In (mkAttempt db_type (field "host" inst) (field "port" inst)
        (Some (field "username" cred)) (field "password" cred))
     (enumerate (VDict d)).
Proof.
  intros Hin Hd Hc. unfold enumerate. apply in_or_app. left.
  apply in_flat_map. exists db_type. split; [exact Hin|].
  unfold db_attempts. rewrite Hd.
  apply (in_map (fun cred => mkAttempt db_type (field "host" inst) (field "port" inst)
                               (Some (field "username" cred)) (field "password" cred))).
  exact Hc.
Qed.

(** C4. A service name the sweep does not know is skipped without raising
    and without aborting the run.  [check_database] returns for it without
    raising, probing or recording, and a configuration entry under such a
    name, wherever it stands, changes nothing in what [run_checks] does.
    When the configuration that holds it is otherwise well-formed (and the
    libraries raise only [Exception]s), [run_checks] returns, the probes
    invoked are the whole enumeration of the supported entries, so that
    every candidate of every configured database type is probed, and the
    Finding of every probe that succeeded is in the results. *)
Theorem unsupported_service_type_is_skipped unsupported v d1 d2 config cred s :
  ~ In unsupported sweep_order ->
  check_database unsupported config cred s = (Return tt, s) /\
  run_checks (VDict (d1 ++ (unsupported, v) :: d2)) s = run_checks (VDict (d1 ++ d2)) s /\
  (well_formed (VDict (d1 ++ (unsupported, v) :: d2)) = true ->
   lib_raises_Exception_only ->
   exists evs,
     fst (run_checks (VDict (d1 ++ (unsupported, v) :: d2)) s) = Return self_results /\
     probe_log (snd (run_checks (VDict (d1 ++ (unsupported, v) :: d2)) s)) =
       probe_log s ++ evs /\
     map attempt_of evs = enumerate (VDict (d1 ++ (unsupported, v) :: d2)) /\
     results (snd (run_checks (VDict (d1 ++ (unsupported, v) :: d2)) s)) =
       results s ++ map finding_of (filter succeeded evs) /\
     forall db_type inst candidate,
       In db_type database_services ->
       assoc db_type (d1 ++ (unsupported, v) :: d2) = Some inst ->
       In candidate (candidates "default_credentials" inst) ->
       exists ev,
         In ev evs /\
         attempt_of ev =
           mkAttempt db_type (field "host" inst) (field "port" inst)
             (Some (field "username" candidate)) (field "password" candidate) /\
         (pe_outcome ev = Return true ->
          In (finding_of ev)
             (results (snd (run_checks (VDict (d1 ++ (unsupported, v) :: d2)) s))))).
Proof.
  intros Hn. split; [|split].
  - unfold check_database. rewrite check_methods_unsupported; [reflexivity|].
    intros H. apply Hn. unfold sweep_order. unfold database_services in H. in_cases H.
  - apply run_checks_agree. intros service Hs. apply assoc_app_skip.
    intros ->. contradiction.
  - intros Hwf Hlib.
    destruct (run_checks_well_formed Hlib (VDict (d1 ++ (unsupported, v) :: d2)) s Hwf)
      as (evs & Hr & L & E & R).
    exists evs. repeat split; try assumption.
    intros db_type inst candidate Hin Hd Hc.
    pose proof (enumerate_database_In _ _ _ _ Hin Hd Hc) as Ha.
    rewrite <- E in Ha. apply in_map_iff in Ha as (ev & Hev & Hin').
    exists ev. repeat split; try assumption.
    intros Ho. rewrite R. apply in_or_app. right.
    unfold findings_of. apply in_map. apply filter_In. split; [exact Hin'|].
    unfold succeeded. now rewrite Ho.
Qed.

(** C6. With client libraries that raise only [Exception]s (refused or
    unreachable connection, failed handshake, rejected credential, protocol
    error, timeout), each of the six probe methods returns a boolean from
    every state and for every argument: [True] when all its library calls
    returned, [False] as soon as one of them raised. *)
Theorem probes_collapse_failures host port username password :
  lib_raises_Exception_only ->
  collapses_failures (check_postgres host port username password) /\
  collapses_failures (check_mysql host port username password) /\
  collapses_failures (check_mongodb host port username password) /\
  collapses_failures (check_mssql host port username password) /\
  collapses_failures (check_oracle host port username password) /\
  collapses_failures (check_redis host port password).
Proof.
  intros Hlib. repeat split.
  - apply check_postgres_collapses, Hlib.
  - apply check_mysql_collapses, Hlib.
  - apply check_mongodb_collapses, Hlib.
  - apply check_mssql_collapses, Hlib.
  - apply check_oracle_collapses, Hlib.
  - apply check_redis_collapses, Hlib.
Qed.

(** C7 (as amended). The exit status of [main] is 1 when loading the
    configuration raises an [Exception]; once the configuration is loaded
    it is 0 if [run_checks] returns, with or without Findings, and the
    status of the uncaught exception if [run_checks] raises. *)
Theorem main_exit_status config_path s :
  exit_status (fst (main config_path s)) =
  match load_yaml config_path (world s) with
  | (Raise e, _) => if is_Exception e then 1%Z else exit_status (Raise e)
  | (Return config, w) =>
      match fst (run_checks config (mkState [] w (probe_log s) (lib_log s))) with
      | Return _ => 0%Z
      | Raise e => exit_status (Raise e)
      end
  end.
Proof.
  unfold main, CredentialChecker, _load_config, try_except_Exception.
  rewrite !bind_unfold.
  destruct (load_yaml config_path (world s)) as [[config|e] w];
    cbn [results world probe_log lib_log].
  - rewrite bind_unfold.
    pose proof (run_checks_fresh_findings config (mkState [] w (probe_log s) (lib_log s)))
      as Hf.
    destruct (run_checks config (mkState [] w (probe_log s) (lib_log s)))
      as [[found|e] s1]; [|reflexivity].
    destruct (Hf eq_refl) as [evs Hevs]. cbn [snd] in Hevs.
    rewrite contents_results, Hevs.
    destruct (findings_of evs) eqn:E; [reflexivity|].
    rewrite <- E, report_findings. reflexivity.
  - destruct (is_Exception e); reflexivity.
Qed.

(** C8 (as amended). With library outcomes fixed by the calls, two runs
    that each start from a fresh checker (empty [self.results]) have the
    same outcome and leave the same Findings in the list they return,
    whatever the state of the world.  A second [run_checks] on the same
    checker returns the same list object as the first, which then holds
    the Findings of the first run twice over. *)
Theorem run_checks_repeatable_from_fresh_checker config s1 s2 :
  lib_outcomes_fixed ->
  results s1 = [] ->
  results s2 = [] ->
  (fst (run_checks config s1) = fst (run_checks config s2) /\
   forall r1 r2,
     fst (run_checks config s1) = Return r1 ->
     fst (run_checks config s2) = Return r2 ->
     contents r1 (snd (run_checks config s1)) = contents r2 (snd (run_checks config s2))) /\
  (forall r1,
     fst (run_checks config s1) = Return r1 ->
     fst (run_checks config (snd (run_checks config s1))) = Return r1 /\
     contents r1 (snd (run_checks config (snd (run_checks config s1)))) =
       contents r1 (snd (run_checks config s1)) ++ contents r1 (snd (run_checks config s1))).
Proof.
  intros Hfix H1 H2. split.
  - destruct (run_checks_fixed Hfix config s1 s2)
      as (delta & D1 & D2 & [[Ha Hb]|(e & Ha & Hb)]).
    + split; [now rewrite Ha, Hb|].
      intros r1 r2 _ _. rewrite !contents_results, D1, D2, H1, H2. reflexivity.
    + split; [now rewrite Ha, Hb|].
      intros r1 r2 Hr. rewrite Ha in Hr. discriminate.
  - intros r1 Hr.
    destruct (run_checks_fixed Hfix config s1 (snd (run_checks config s1)))
      as (delta & D1 & D2 & [[Ha Hb]|(e & Ha & _)]).
    + split; [rewrite Hb; destruct r1; reflexivity|].
      rewrite !contents_results, D2, D1, H1. reflexivity.
    + rewrite Ha in Hr. discriminate.
Qed.

(** C9. [check_redis] takes a host, a port and a password and no username;
    it calls the Redis constructor and then [ping], nothing else, and
    returns [True] exactly when the ping returned.  With libraries that
    raise only [Exception]s, the Redis sweep over an instance with [host],
    [port] and a list of passwords returns, invokes [check_redis] once per
    password in list order, with no username, and records the Finding of
    each success. *)
Theorem check_redis_password_only d inst passwords s :
  lib_raises_Exception_only ->
  assoc "redis" d = Some inst ->
  has_key "host" inst = true ->
  has_key "port" inst = true ->
  py_getitem inst "default_passwords" = Return (VList passwords) ->
  (forall host port password s',
     exists calls,
       lib_log (snd (check_redis host port password s')) = lib_log s' ++ calls /\
       ((exists e, calls = [(RedisInit host port password 3, Raise e)]) \/
        (exists r o, calls = [(RedisInit host port password 3, Return r); (RedisPing r, o)])) /\
       (fst (check_redis host port password s') = Return true <->
        exists r r', calls = [(RedisInit host port password 3, Return r);
                              (RedisPing r, Return r')])) /\
  exists evs,
    fst (check_redis_section (VDict d) s) = Return tt /\
    probe_log (snd (check_redis_section (VDict d) s)) = probe_log s ++ evs /\
    map attempt_of evs =
      map (fun password => mkAttempt "redis" (field "host" inst) (field "port" inst)
                             None password) passwords /\
    results (snd (check_redis_section (VDict d) s)) =
      results s ++ map finding_of (filter succeeded evs).
Proof.
  intros Hlib Hd Hh Hp Hpw. split; [intros; apply check_redis_calls|].
  assert (Hok : entry_ok redis_instance_ok d "redis" = true).
  { unfold entry_ok, redis_instance_ok. rewrite Hd, Hh, Hp. unfold field. rewrite Hpw.
    unfold has_key. apply getitem_Return in Hpw as (i & -> & ->). reflexivity. }
  destruct (check_redis_section_completes Hlib d Hok s) as [Hr (evs & L & E)].
  destruct (check_redis_section_extends (VDict d) s) as (evs' & L' & R' & _).
  rewrite L in L'. apply app_inv_head in L'. subst evs'.
  exists evs. repeat split; try assumption.
  rewrite E. unfold redis_attempts, candidates, field. rewrite Hd, Hpw. reflexivity.
Qed.

(** C10. Every Finding appended by [run_checks] comes from a probe event.
    When the event belongs to the Redis sweep its keys are [service],
    [host], [port], [password]; otherwise it belongs to one of the five
    database types and its keys are [service], [host], [port], [username],
    [password].  The key [username] is present exactly when the Finding
    does not come from the Redis sweep. *)
Theorem finding_keys_by_sweep config s :
  exists evs,
    probe_log (snd (run_checks config s)) = probe_log s ++ evs /\
    results (snd (run_checks config s)) = results s ++ map finding_of (filter succeeded evs) /\
    forall ev, In ev evs ->
      (pe_service ev = "redis" -> keys (finding_of ev) = redis_finding_keys) /\
      (pe_service ev <> "redis" ->
       In (pe_service ev) database_services /\ keys (finding_of ev) = database_finding_keys) /\
      (In "username" (keys (finding_of ev)) <-> pe_service ev <> "redis").
Proof.
  destruct (run_checks_extends config s) as (evs & L & R & F).
  exists evs. repeat split; try assumption; rewrite Forall_forall in F;
    destruct (F ev H) as [_ Hok]; apply (event_ok_keys ev Hok); assumption.
Qed.

(** * Further properties of the probe methods *)

Ltac connect_close_cases connect :=
  intros s;
  unfold try_except_Exception, bind, call_lib, ret;
  destruct (lib connect (world s)) as [[conn|e] w1];
    cbn [world lib_log results probe_log];
    [ destruct (lib (Close conn) w1) as [[r|e] w2];
        cbn [fst snd lib_log];
        [ eexists; split; [rewrite <- app_assoc; reflexivity|];
          split; [right; do 2 eexists; reflexivity|reflexivity]
        | destruct (is_Exception e) eqn:He; cbn [fst snd lib_log];
          (eexists; split; [rewrite <- app_assoc; reflexivity|];
           split; [right; do 2 eexists; reflexivity|]);
          cbn [outcome_of_calls app]; rewrite He; reflexivity ]
    | destruct (is_Exception e) eqn:He; cbn [fst snd lib_log];
      (eexists; split; [reflexivity|];
       split; [left; eexists; reflexivity|]);
      cbn [outcome_of_calls]; rewrite He; reflexivity ].

Lemma check_postgres_connects_then_closes host port username password :
  connects_then_closes
    (Psycopg2Connect host port username password "postgres" 3)
    (check_postgres host port username password).
Proof.
  unfold check_postgres.
  connect_close_cases (Psycopg2Connect host port username password "postgres" 3).
Qed.

Lemma check_mysql_connects_then_closes host port username password :
  connects_then_closes
    (MysqlConnect host port username password 3)
    (check_mysql host port username password).
Proof.
  unfold check_mysql.
  connect_close_cases (MysqlConnect host port username password 3).
Qed.

Lemma check_mssql_connects_then_closes host port username password :
  connects_then_closes
    (PymssqlConnect host port username password 3)
    (check_mssql host port username password).
Proof.
  unfold check_mssql.
  connect_close_cases (PymssqlConnect host port username password 3).
Qed.

Lemma check_oracle_connects_then_closes host port username password :
  connects_then_closes
    (OracledbConnect username password
       (py_format host ++ ":" ++ py_format port ++ "/ORCL")%string 3)
    (check_oracle host port username password).
Proof.
  unfold check_oracle.
  connect_close_cases
    (OracledbConnect username password
       (py_format host ++ ":" ++ py_format port ++ "/ORCL")%string 3).
Qed.

Lemma check_mongodb_call_shapes host port username password s :
  exists calls,
    let uri := ("mongodb://" ++ py_format username ++ ":" ++ py_format password
                ++ "@" ++ py_format host ++ ":" ++ py_format port
                ++ "/?serverSelectionTimeoutMS=3000")%string in
    lib_log (snd (check_mongodb host port username password s)) = lib_log s ++ calls /\
    ((exists e, calls = [(MongoClient uri, Raise e)]) \/
     (exists client e,
        calls = [(MongoClient uri, Return client); (MongoServerInfo client, Raise e)]) \/
     (exists client info o,
        calls = [(MongoClient uri, Return client);
                 (MongoServerInfo client, Return info);
                 (Close client, o)])) /\
    fst (check_mongodb host port username password s) = outcome_of_calls calls.
Proof.
  unfold check_mongodb, try_except_Exception, bind, call_lib, ret.
  cbv zeta.
  destruct (lib (MongoClient _) (world s)) as [[client|e] w1];
    cbn [world lib_log results probe_log].
  - destruct (lib (MongoServerInfo client) w1) as [[info|e] w2];
      cbn [world lib_log results probe_log].
    + destruct (lib (Close client) w2) as [[r|e] w3]; cbn [fst snd lib_log].
      * eexists. split; [rewrite <- !app_assoc; reflexivity|].
        split; [right; right; do 3 eexists; reflexivity|reflexivity].
      * destruct (is_Exception e) eqn:He; cbn [fst snd lib_log];
          (eexists; split; [rewrite <- !app_assoc; reflexivity|];
           split; [right; right; do 3 eexists; reflexivity|]);
          cbn [outcome_of_calls app]; rewrite He; reflexivity.
    + destruct (is_Exception e) eqn:He; cbn [fst snd lib_log];
        (eexists; split; [rewrite <- !app_assoc; reflexivity|];
         split; [right; left; do 2 eexists; reflexivity|]);
        cbn [outcome_of_calls app]; rewrite He; reflexivity.
  - destruct (is_Exception e) eqn:He; cbn [fst snd lib_log];
      (eexists; split; [reflexivity|];
       split; [left; eexists; reflexivity|]);
      cbn [outcome_of_calls]; rewrite He; reflexivity.
Qed.

(** X1. [check_postgres], [check_mysql], [check_mssql] and [check_oracle]
    each make one connect call, with the arguments they were given, the
    timeout 3 and, for PostgreSQL and Oracle, the fixed database
    [postgres] and service [ORCL]; they close the connection when, and only
    when, the connect call returned one.  They answer [True] when both calls
    returned, [False] when one raised an [Exception] (also when it is
    [close] that raised, after the credential was accepted), and let any
    other exception through. *)
Theorem database_probes_connect_then_close host port username password :
  connects_then_closes
    (Psycopg2Connect host port username password "postgres" 3)
    (check_postgres host port username password) /\
  connects_then_closes
    (MysqlConnect host port username password 3)
    (check_mysql host port username password) /\
  connects_then_closes
    (PymssqlConnect host port username password 3)
    (check_mssql host port username password) /\
  connects_then_closes
    (OracledbConnect username password
       (py_format host ++ ":" ++ py_format port ++ "/ORCL")%string 3)
    (check_oracle host port username password).
Proof.
  repeat split.
  - apply check_postgres_connects_then_closes.
  - apply check_mysql_connects_then_closes.
  - apply check_mssql_connects_then_closes.
  - apply check_oracle_connects_then_closes.
Qed.

(** X2. [check_mongodb] creates the client from a URI built from the
    username, password, host and port, with a server selection timeout of
    3000 ms; it calls [server_info] when the client was created and closes
    the client when [server_info] returned, not when it raised.  It answers
    by the outcome of these calls as the other probes do. *)
Theorem check_mongodb_calls host port username password s :
  exists calls,
    let uri := ("mongodb://" ++ py_format username ++ ":" ++ py_format password
                ++ "@" ++ py_format host ++ ":" ++ py_format port
                ++ "/?serverSelectionTimeoutMS=3000")%string in
    lib_log (snd (check_mongodb host port username password s)) = lib_log s ++ calls /\
    ((exists e, calls = [(MongoClient uri, Raise e)]) \/
     (exists client e,
        calls = [(MongoClient uri, Return client); (MongoServerInfo client, Raise e)]) \/
     (exists client info o,
        calls = [(MongoClient uri, Return client);
                 (MongoServerInfo client, Return info);
                 (Close client, o)])) /\
    fst (check_mongodb host port username password s) = outcome_of_calls calls.
Proof. apply check_mongodb_call_shapes. Qed.

(** * Further properties of [check_database] *)

(** X3. For a supported type and an instance with [host] and [port], a
    candidate that is not a dict, or lacks [username] or [password], makes
    [check_database] raise before the probe is invoked: [TypeError] for a
    candidate that is not a dict, otherwise [KeyError] for the first of
    [username], [password] that is missing.  Nothing is probed, called or
    recorded. *)
Theorem check_database_bad_candidate db_type inst cred s :
  In db_type database_services ->
  has_key "host" inst = true ->
  has_key "port" inst = true ->
  credential_ok cred = false ->
  check_database db_type inst cred s = (Raise (candidate_error cred), s).
Proof.
  intros Hin Hh Hp Hc.
  destruct (check_methods_supported _ Hin) as [method Hm].
  unfold check_database. rewrite Hm.
  rewrite (has_key_getitem _ _ Hh), (has_key_getitem _ _ Hp), !bind_lift_Return.
  destruct cred as [ | | | | |c]; try reflexivity.
  unfold credential_ok, has_key in Hc. unfold candidate_error, py_getitem.
  destruct (assoc "username" c) as [u|]; [|reflexivity].
  destruct (assoc "password" c) as [pw|]; [discriminate|].
  rewrite bind_lift_Return. reflexivity.
Qed.

(** * Further properties of the sweep *)

(** ** Relations that every step of the sweep keeps *)

Section EngineSteps.

Variable R : state -> state -> Prop.
Hypothesis R_refl : forall s, R s s.
Hypothesis R_trans : forall s1 s2 s3, R s1 s2 -> R s2 s3 -> R s1 s3.
Hypothesis R_append : forall f, preserves R (append_result f).
Hypothesis R_database :
  forall db_type method host port username password,
    assoc db_type check_methods = Some method ->
    preserves R (invoke db_type host port (Some username) password
                   (method host port username password)).
Hypothesis R_redis :
  forall host port password,
    preserves R (invoke "redis" host port None password (check_redis host port password)).

Ltac R_steps :=
  repeat first
    [ apply (preserves_bind R R_trans); [|intros ?]
    | apply (preserves_lift R R_refl)
    | apply (preserves_ret R R_refl)
    | apply R_append ].

Lemma check_database_keeps db_type config cred :
  preserves R (check_database db_type config cred).
Proof.
  unfold check_database.
  destruct (assoc db_type check_methods) as [method|] eqn:Hm;
    [|apply (preserves_ret R R_refl)].
  do 4 (apply (preserves_bind R R_trans); [apply (preserves_lift R R_refl)|intros ?]).
  apply (preserves_bind R R_trans); [apply R_database, Hm|].
  intros [|]; R_steps.
Qed.

Lemma check_redis_password_keeps inst password :
  preserves R (check_redis_password inst password).
Proof.
  unfold check_redis_password.
  do 2 (apply (preserves_bind R R_trans); [apply (preserves_lift R R_refl)|intros ?]).
  apply (preserves_bind R R_trans); [apply R_redis|].
  intros [|]; R_steps.
Qed.

Lemma check_db_type_keeps config db_type : preserves R (check_db_type config db_type).
Proof.
  unfold check_db_type.
  apply (preserves_bind R R_trans); [apply (preserves_lift R R_refl)|].
  intros [|]; [|apply (preserves_ret R R_refl)].
  do 3 (apply (preserves_bind R R_trans); [apply (preserves_lift R R_refl)|intros ?]).
  apply (preserves_for_each R R_refl R_trans). intros cred _.
  apply check_database_keeps.
Qed.

Lemma check_redis_section_keeps config : preserves R (check_redis_section config).
Proof.
  unfold check_redis_section.
  apply (preserves_bind R R_trans); [apply (preserves_lift R R_refl)|].
  intros [|]; [|apply (preserves_ret R R_refl)].
  do 3 (apply (preserves_bind R R_trans); [apply (preserves_lift R R_refl)|intros ?]).
  apply (preserves_for_each R R_refl R_trans). intros pw _.
  apply check_redis_password_keeps.
Qed.

Lemma run_checks_keeps config : preserves R (run_checks config).
Proof.
  unfold run_checks.
  apply (preserves_bind R R_trans).
  - apply (preserves_for_each R R_refl R_trans). intros t _. apply check_db_type_keeps.
  - intros _. apply (preserves_bind R R_trans); [apply check_redis_section_keeps|].
    intros _. apply (preserves_ret R R_refl).
Qed.

End EngineSteps.

(** ** Library calls per probe *)










(** ** The constants of the library calls *)

Lemma calls_bounded_refl s : calls_bounded s s.
Proof. exists []. rewrite app_nil_r. split; [reflexivity|constructor]. Qed.

Lemma calls_bounded_trans s1 s2 s3 :
  calls_bounded s1 s2 -> calls_bounded s2 s3 -> calls_bounded s1 s3.
Proof.
  intros (c1 & L1 & F1) (c2 & L2 & F2). exists (c1 ++ c2).
  rewrite L2, L1, app_assoc. split; [reflexivity|apply Forall_app; split; assumption].
Qed.

Lemma call_lib_bounded c : bounded_call c -> preserves calls_bounded (call_lib c).
Proof.
  intros H s. unfold call_lib. destruct (lib c (world s)) as [r w].
  exists [(c, r)]. split; [reflexivity|]. constructor; [exact H|constructor].
Qed.

Lemma append_result_bounded f : preserves calls_bounded (append_result f).
Proof. intros s. exists []. simpl. rewrite app_nil_r. split; [reflexivity|constructor]. Qed.

Lemma invoke_bounded service host port username password method :
  preserves calls_bounded method ->
  preserves calls_bounded (invoke service host port username password method).
Proof.
  intros H s. unfold invoke. specialize (H s).
  destruct (method s) as [r s1]. exact H.
Qed.

Ltac bounded_steps :=
  repeat first
    [ apply (preserves_try calls_bounded calls_bounded_trans)
    | apply (preserves_bind calls_bounded calls_bounded_trans); [|intros ?]
    | apply (preserves_ret calls_bounded calls_bounded_refl)
    | apply call_lib_bounded; simpl; repeat split; try (eexists; reflexivity) ].

Lemma string_append_assoc (a b c : string) :
  ((a ++ b) ++ c)%string = (a ++ (b ++ c))%string.
Proof. induction a as [|x a IH]; simpl; [reflexivity|now rewrite IH]. Qed.

Lemma check_methods_bounded db_type method h p u pw :
  assoc db_type check_methods = Some method ->
  preserves calls_bounded (method h p u pw).
Proof.
  intros H. apply check_methods_cases in H.
  destruct H as [[_ ->]|[[_ ->]|[[_ ->]|[[_ ->]|[_ ->]]]]];
    [unfold check_postgres|unfold check_mysql|unfold check_mongodb
    |unfold check_mssql|unfold check_oracle]; cbv zeta; bounded_steps.
  - exists ("mongodb://" ++ py_format u ++ ":" ++ py_format pw
            ++ "@" ++ py_format h ++ ":" ++ py_format p)%string.
    rewrite !string_append_assoc. reflexivity.
  - exists (py_format h ++ ":" ++ py_format p)%string.
    rewrite !string_append_assoc. reflexivity.
Qed.

Lemma check_redis_bounded h p pw : preserves calls_bounded (check_redis h p pw).
Proof. unfold check_redis. bounded_steps. Qed.

(** X8. Whatever the configuration, every library call that opens a
    connection during [run_checks] carries the timeout of 3 seconds (3000
    ms in the MongoDB URI); PostgreSQL is always asked for the database
    [postgres] and Oracle for the service [ORCL]. *)
Theorem run_checks_calls_bounded config s :
  exists calls,
    lib_log (snd (run_checks config s)) = lib_log s ++ calls /\
    Forall (fun ce => bounded_call (fst ce)) calls.
Proof.
  apply (run_checks_keeps calls_bounded calls_bounded_refl calls_bounded_trans
           append_result_bounded).
  - intros db_type method h p u pw Hm. apply invoke_bounded.
    eapply check_methods_bounded; exact Hm.
  - intros h p pw. apply invoke_bounded, check_redis_bounded.
Qed.

(** ** A probe that raises ends the sweep *)

Lemma stops_silent {A} (c : M A) :
  (forall s, probe_log (snd (c s)) = probe_log s) -> stops_at_raise c.
Proof.
  intros H s. exists []. rewrite app_nil_r. split; [apply H|left; constructor].
Qed.

Lemma stops_bind {A B} (c : M A) (k : A -> M B) :
  stops_at_raise c -> (forall a, stops_at_raise (k a)) -> stops_at_raise (bind c k).
Proof.
  intros Hc Hk s. rewrite bind_unfold.
  destruct (Hc s) as (e1 & L1 & H1).
  destruct (c s) as [[a|e] s1]; simpl in *.
  - destruct H1 as [F1|(evs0 & ev & x & _ & _ & _ & _ & Hr)]; [|discriminate].
    destruct (Hk a s1) as (e2 & L2 & H2).
    exists (e1 ++ e2). rewrite L2, L1, app_assoc. split; [reflexivity|].
    destruct H2 as [F2|(evs0 & ev & x & -> & F2 & Ho & Hx & Hr)].
    + left. apply Forall_app; split; assumption.
    + right. exists (e1 ++ evs0), ev, x. rewrite app_assoc.
      repeat split; try assumption. apply Forall_app; split; assumption.
  - exists e1. split; [exact L1|].
    destruct H1 as [F1|(evs0 & ev & x & -> & F1 & Ho & Hx & Hr)]; [left; exact F1|].
    right. exists evs0, ev, x. repeat split; try assumption.
    injection Hr as ->. reflexivity.
Qed.

Lemma stops_for_each {A} (l : list A) (body : A -> M unit) :
  (forall x, stops_at_raise (body x)) -> stops_at_raise (for_each l body).
Proof.
  intros H. induction l as [|x l IH]; simpl.
  - apply stops_silent. reflexivity.
  - apply stops_bind; [apply H|intros _; exact IH].
Qed.

Lemma try_except_raises {A} (body handler : M A) s e :
  (forall s', returned (fst (handler s')) = true) ->
  fst (try_except_Exception body handler s) = Raise e -> is_Exception e = false.
Proof.
  intros Hh. unfold try_except_Exception.
  destruct (body s) as [[a|x] s1]; [discriminate|].
  destruct (is_Exception x) eqn:Hx.
  - specialize (Hh s1). destruct (handler s1) as [[a|y] s2]; discriminate.
  - intros [= <-]. exact Hx.
Qed.

Lemma check_methods_raise db_type method h p u pw s e :
  assoc db_type check_methods = Some method ->
  fst (method h p u pw s) = Raise e -> is_Exception e = false.
Proof.
  intros H. apply check_methods_cases in H.
  destruct H as [[_ ->]|[[_ ->]|[[_ ->]|[[_ ->]|[_ ->]]]]];
    apply try_except_raises; reflexivity.
Qed.

Lemma check_redis_raise h p pw s e :
  fst (check_redis h p pw s) = Raise e -> is_Exception e = false.
Proof. apply try_except_raises; reflexivity. Qed.

Lemma stops_invoke service host port username password method :
  preserves quiet method ->
  (forall s e, fst (method s) = Raise e -> is_Exception e = false) ->
  stops_at_raise (invoke service host port username password method).
Proof.
  intros Hq Hx s. unfold invoke. destruct (Hq s) as [_ Hl]. specialize (Hx s).
  destruct (method s) as [r s1]. simpl in *.
  exists [mkProbe service host port username password r]. rewrite Hl.
  split; [reflexivity|]. destruct r as [b|e].
  - left. constructor; [reflexivity|constructor].
  - right. exists [], (mkProbe service host port username password (Raise e)), e.
    repeat split; [constructor|apply Hx; reflexivity].
Qed.

Ltac stops_steps :=
  repeat first
    [ apply stops_bind; [|intros ?]
    | apply stops_silent; reflexivity ].

Lemma check_database_stops db_type config cred :
  stops_at_raise (check_database db_type config cred).
Proof.
  unfold check_database.
  destruct (assoc db_type check_methods) as [method|] eqn:Hm;
    [|apply stops_silent; reflexivity].
  do 4 (apply stops_bind; [apply stops_silent; reflexivity|intros ?]).
  apply stops_bind.
  - apply stops_invoke; [eapply check_methods_quiet; exact Hm|].
    intros s e. eapply check_methods_raise; exact Hm.
  - intros [|]; stops_steps.
Qed.

Lemma check_redis_password_stops inst password :
  stops_at_raise (check_redis_password inst password).
Proof.
  unfold check_redis_password.
  do 2 (apply stops_bind; [apply stops_silent; reflexivity|intros ?]).
  apply stops_bind.
  - apply stops_invoke; [apply check_redis_quiet|].
    intros s e. apply check_redis_raise.
  - intros [|]; stops_steps.
Qed.

Lemma check_db_type_stops config db_type : stops_at_raise (check_db_type config db_type).
Proof.
  unfold check_db_type.
  apply stops_bind; [apply stops_silent; reflexivity|].
  intros [|]; [|apply stops_silent; reflexivity].
  do 3 (apply stops_bind; [apply stops_silent; reflexivity|intros ?]).
  apply stops_for_each. intros cred. apply check_database_stops.
Qed.

Lemma check_redis_section_stops config : stops_at_raise (check_redis_section config).
Proof.
  unfold check_redis_section.
  apply stops_bind; [apply stops_silent; reflexivity|].
  intros [|]; [|apply stops_silent; reflexivity].
  do 3 (apply stops_bind; [apply stops_silent; reflexivity|intros ?]).
  apply stops_for_each. intros pw. apply check_redis_password_stops.
Qed.

(** X13. Whatever the configuration and the libraries, all the probes that
    [run_checks] invoked returned, except that the last one may have
    raised (an exception that is not an [Exception], which the probe lets
    through); [run_checks] then raises that exception and probes nothing
    more. *)
Theorem run_checks_stops_at_raising_probe config s :
  exists evs,
    probe_log (snd (run_checks config s)) = probe_log s ++ evs /\
    (Forall (fun ev => returned (pe_outcome ev) = true) evs \/
     exists evs0 ev e,
       evs = evs0 ++ [ev] /\
       Forall (fun ev => returned (pe_outcome ev) = true) evs0 /\
       pe_outcome ev = Raise e /\
       is_Exception e = false /\
       fst (run_checks config s) = Raise e).
Proof.
  revert s. change (stops_at_raise (run_checks config)).
  unfold run_checks.
  apply stops_bind.
  - apply stops_for_each. intros t. apply check_db_type_stops.
  - intros _. apply stops_bind; [apply check_redis_section_stops|].
    intros _. apply stops_silent. reflexivity.
Qed.

(** ** The attempts of a run that raises *)

Ltac prefix_nothing l :=
  exists [], l; simpl; rewrite ?app_nil_r;
  split; [reflexivity|split; [reflexivity|first [discriminate|intros _; reflexivity]]].

Lemma prefix_silent {A} (c : M A) :
  (forall s, probe_log (snd (c s)) = probe_log s) -> attempts_prefix c [].
Proof.
  intros H s. exists [], []. rewrite app_nil_r.
  split; [apply H|split; [reflexivity|reflexivity]].
Qed.

Lemma prefix_bind {A B} (c : M A) (k : A -> M B) l1 l2 :
  attempts_prefix c l1 -> (forall a, attempts_prefix (k a) l2) ->
  attempts_prefix (bind c k) (l1 ++ l2).
Proof.
  intros Hc Hk s. rewrite bind_unfold.
  destruct (Hc s) as (e1 & r1 & L1 & E1 & F1).
  destruct (c s) as [[a|e] s1]; simpl in *.
  - specialize (F1 eq_refl). subst r1. rewrite app_nil_r in E1.
    destruct (Hk a s1) as (e2 & r2 & L2 & E2 & F2).
    exists (e1 ++ e2), r2.
    rewrite L2, L1, app_assoc, map_app, E1, E2, app_assoc.
    repeat split. exact F2.
  - exists e1, (r1 ++ l2). split; [exact L1|].
    split; [rewrite E1, app_assoc; reflexivity|discriminate].
Qed.

Lemma prefix_for_each {A} (l : list A) (body : A -> M unit) (f : A -> list attempt) :
  (forall x, attempts_prefix (body x) (f x)) ->
  attempts_prefix (for_each l body) (flat_map f l).
Proof.
  intros H. induction l as [|x l IH]; simpl.
  - apply prefix_silent. reflexivity.
  - apply prefix_bind; [apply H|intros _; exact IH].
Qed.

Lemma prefix_for_each_In {A} (l : list A) (body : A -> M unit) (f : A -> list attempt) :
  (forall x, In x l -> attempts_prefix (body x) (f x)) ->
  attempts_prefix (for_each l body) (flat_map f l).
Proof.
  induction l as [|x l IH]; intros H; simpl.
  - apply prefix_silent. reflexivity.
  - apply prefix_bind; [apply H; left; reflexivity|].
    intros _. apply IH. intros y Hy. apply H. right; exact Hy.
Qed.

Lemma check_database_prefix db_type inst cred :
  In db_type database_services ->
  attempts_prefix (check_database db_type inst cred)
    [mkAttempt db_type (field "host" inst) (field "port" inst)
       (Some (field "username" cred)) (field "password" cred)].
Proof.
  intros Hin s. destruct (check_methods_supported _ Hin) as [method Hm].
  unfold check_database. rewrite Hm.
  do 4 (step_lift;
        [|prefix_nothing
            [mkAttempt db_type (field "host" inst) (field "port" inst)
               (Some (field "username" cred)) (field "password" cred)]]).
  rewrite (getitem_field _ _ _ E), (getitem_field _ _ _ E0),
    (getitem_field _ _ _ E1), (getitem_field _ _ _ E2).
  rewrite bind_unfold. unfold invoke.
  pose proof (check_methods_quiet db_type method a a0 a1 a2 Hm s) as [_ Hq].
  destruct (method a a0 a1 a2 s) as [r s1]. simpl in Hq.
  destruct r as [[|]|e]; eexists; exists []; simpl; rewrite Hq;
    (split; [reflexivity|split; [reflexivity|reflexivity]]).
Qed.

Lemma check_redis_password_prefix inst password :
  attempts_prefix (check_redis_password inst password)
    [mkAttempt "redis" (field "host" inst) (field "port" inst) None password].
Proof.
  intros s. unfold check_redis_password.
  do 2 (step_lift;
        [|prefix_nothing
            [mkAttempt "redis" (field "host" inst) (field "port" inst) None password]]).
  rewrite (getitem_field _ _ _ E), (getitem_field _ _ _ E0).
  rewrite bind_unfold. unfold invoke.
  pose proof (check_redis_quiet a a0 password s) as [_ Hq].
  destruct (check_redis a a0 password s) as [r s1]. simpl in Hq.
  destruct r as [[|]|e]; eexists; exists []; simpl; rewrite Hq;
    (split; [reflexivity|split; [reflexivity|reflexivity]]).
Qed.

Lemma check_db_type_prefix config db_type :
  In db_type database_services ->
  attempts_prefix (check_db_type config db_type)
    (match config with VDict d => db_attempts d db_type | _ => [] end).
Proof.
  intros Hin s. unfold check_db_type.
  step_lift;
    [|prefix_nothing (match config with VDict d => db_attempts d db_type | _ => [] end)].
  destruct a.
  - step_lift;
      [|prefix_nothing (match config with VDict d => db_attempts d db_type | _ => [] end)].
    apply getitem_Return in E0 as (d & -> & Hd).
    unfold db_attempts, candidates. rewrite Hd.
    step_lift;
      [|match goal with |- context [map ?f ?l] => prefix_nothing (map f l) end].
    rewrite (getitem_field _ _ _ E0).
    step_lift; [|prefix_nothing (@nil attempt)].
    rewrite <- flat_map_single. apply prefix_for_each.
    intros cred. apply check_database_prefix, Hin.
  - destruct config; try (prefix_nothing (@nil attempt)).
    unfold db_attempts. rewrite py_contains_dict in E.
    destruct (assoc db_type d); [discriminate|prefix_nothing (@nil attempt)].
Qed.

Lemma check_redis_section_prefix config :
  attempts_prefix (check_redis_section config)
    (match config with VDict d => redis_attempts d | _ => [] end).
Proof.
  intros s. unfold check_redis_section.
  step_lift;
    [|prefix_nothing (match config with VDict d => redis_attempts d | _ => [] end)].
  destruct a.
  - step_lift;
      [|prefix_nothing (match config with VDict d => redis_attempts d | _ => [] end)].
    apply getitem_Return in E0 as (d & -> & Hd).
    unfold redis_attempts, candidates. rewrite Hd.
    step_lift;
      [|match goal with |- context [map ?f ?l] => prefix_nothing (map f l) end].
    rewrite (getitem_field _ _ _ E0).
    step_lift; [|prefix_nothing (@nil attempt)].
    rewrite <- flat_map_single. apply prefix_for_each.
    intros pw. apply check_redis_password_prefix.
  - destruct config; try (prefix_nothing (@nil attempt)).
    unfold redis_attempts. rewrite py_contains_dict in E.
    destruct (assoc "redis" d); [discriminate|prefix_nothing (@nil attempt)].
Qed.

Lemma run_checks_prefix config : attempts_prefix (run_checks config) (enumerate config).
Proof.
  assert (H : attempts_prefix (run_checks config)
                (flat_map (fun t => match config with
                                    | VDict d => db_attempts d t
                                    | _ => []
                                    end) database_services
                 ++ (match config with VDict d => redis_attempts d | _ => [] end) ++ [])).
  { unfold run_checks. apply prefix_bind.
    - apply prefix_for_each_In. intros t Ht. apply check_db_type_prefix, Ht.
    - intros _. apply prefix_bind; [apply check_redis_section_prefix|].
      intros _. apply prefix_silent. reflexivity. }
  rewrite app_nil_r in H.
  destruct config; try exact H.
Qed.

(** X4. Whatever the configuration and the libraries, also when the run
    raises midway, the probes that [run_checks] invoked are the first
    attempts of the enumeration, in its order, none skipped and none
    repeated; they are all of them when the run returns. *)
Theorem run_checks_attempts_are_prefix config s :
  exists evs rest,
    probe_log (snd (run_checks config s)) = probe_log s ++ evs /\
    enumerate config = map attempt_of evs ++ rest /\
    (returned (fst (run_checks config s)) = true -> rest = []).
Proof. apply run_checks_prefix. Qed.

Lemma enumerate_In config a :
  In a (enumerate config) ->
  exists d inst,
    config = VDict d /\
    assoc (at_service a) d = Some inst /\
    at_host a = field "host" inst /\
    at_port a = field "port" inst /\
    match at_username a with
    | Some u =>
        exists cred,
          In cred (candidates "default_credentials" inst) /\
          u = field "username" cred /\ at_password a = field "password" cred
    | None => In (at_password a) (candidates "default_passwords" inst)
    end.
Proof.
  destruct config as [ | | | | |d]; try (intros []).
  unfold enumerate. rewrite in_app_iff, in_flat_map.
  intros [(t & _ & H)|H].
  - unfold db_attempts in H. destruct (assoc t d) as [inst|] eqn:Hd; [|destruct H].
    apply in_map_iff in H as (cred & <- & Hc).
    exists d, inst. simpl. repeat split; try assumption. exists cred. auto.
  - unfold redis_attempts in H. destruct (assoc "redis" d) as [inst|] eqn:Hd; [|destruct H].
    apply in_map_iff in H as (pw & <- & Hc).
    exists d, inst. simpl. repeat split; assumption.
Qed.

(** X5. Every probe that [run_checks] invokes is for a service that is a
    key of the configuration, goes to the [host] and [port] of that
    service's entry, and tries a candidate drawn from that entry's list: a
    service that is absent, or has no candidates, is never probed, and a
    configuration that is not a dict is never probed at all. *)
Theorem run_checks_probes_only_configured config s :
  exists evs,
    probe_log (snd (run_checks config s)) = probe_log s ++ evs /\
    forall ev, In ev evs ->
      exists d inst,
        config = VDict d /\
        assoc (pe_service ev) d = Some inst /\
        pe_host ev = field "host" inst /\
        pe_port ev = field "port" inst /\
        match pe_username ev with
        | Some u =>
            exists cred,
              In cred (candidates "default_credentials" inst) /\
              u = field "username" cred /\ pe_password ev = field "password" cred
        | None => In (pe_password ev) (candidates "default_passwords" inst)
        end.
Proof.
  destruct (run_checks_prefix config s) as (evs & rest & L & E & _).
  exists evs. split; [exact L|].
  intros ev Hev. apply (enumerate_In config (attempt_of ev)).
  rewrite E. apply in_or_app. left. apply in_map, Hev.
Qed.

(** ** A configuration that is not a dict *)

Ltac decide_contains :=
  repeat match goal with
  | |- context [substring_of ?n ?h] => destruct (substring_of n h)
  | |- context [existsb ?f ?l] => destruct (existsb f l)
  end.

(** X6. When the loaded configuration is not a dict (an empty file loads as
    [None], a YAML sequence as a list, a scalar as a string or number),
    [run_checks] never probes and changes nothing.  On [None], a boolean or
    a number it raises [TypeError]; on a list or a string it raises
    [TypeError] if one of the six service names is an element of the list,
    or occurs in the string, and returns the untouched [self.results]
    otherwise. *)
Theorem run_checks_config_not_a_dict config s :
  (forall d, config <> VDict d) ->
  run_checks config s =
  (if forallb (fun name => match py_contains name config with
                           | Return false => true
                           | _ => false
                           end) sweep_order
   then Return self_results
   else Raise TypeError,
   s).
Proof.
  intros Hd. destruct config as [ | | | | |d]; try reflexivity.
  - unfold run_checks, database_services, sweep_order, check_db_type,
      check_redis_section, py_contains, py_getitem, lift, bind, ret. simpl.
    decide_contains; reflexivity.
  - unfold run_checks, database_services, sweep_order, check_db_type,
      check_redis_section, py_contains, py_getitem, lift, bind, ret. simpl.
    decide_contains; reflexivity.
  - exfalso. apply (Hd d). reflexivity.
Qed.

(** ** Candidates that are not given as a list *)

Lemma check_redis_section_iterates d inst passwords items :
  lib_raises_Exception_only ->
  assoc "redis" d = Some inst ->
  has_key "host" inst = true ->
  has_key "port" inst = true ->
  py_getitem inst "default_passwords" = Return passwords ->
  py_iter passwords = Return items ->
  completes_with (check_redis_section (VDict d))
    (map (fun password => mkAttempt "redis" (field "host" inst) (field "port" inst)
                            None password) items).
Proof.
  intros Hlib Hd Hh Hp Hpw Hi s.
  assert (Hs : check_redis_section (VDict d) s =
               for_each items (check_redis_password inst) s).
  { unfold check_redis_section.
    rewrite py_contains_dict, Hd, bind_lift_Return.
    unfold py_getitem at 1. rewrite Hd, bind_lift_Return, Hpw, bind_lift_Return,
      Hi, bind_lift_Return. reflexivity. }
  rewrite Hs, <- flat_map_single.
  apply completes_with_for_each.
  intros pw _. apply check_redis_password_completes; assumption.
Qed.

Lemma code_points_nil s : code_points s = [] -> s = EmptyString.
Proof.
  destruct s as [|c rest]; [reflexivity|]. simpl.
  destruct (code_points rest); [discriminate|].
  destruct (starts_with_continuation rest); discriminate.
Qed.

Lemma code_points_head c rest p ps :
  code_points (String c rest) = p :: ps -> exists p', p = String c p'.
Proof.
  simpl. destruct (code_points rest) as [|q qs].
  - intros [= <- _]. eauto.
  - destruct (starts_with_continuation rest); intros [= <- _]; eauto.
Qed.

Lemma code_points_join s : join (code_points s) = s.
Proof.
  induction s as [|c rest IH]; [reflexivity|]. simpl.
  destruct (code_points rest) as [|p ps] eqn:E.
  - apply code_points_nil in E. subst rest. reflexivity.
  - destruct (starts_with_continuation rest); simpl; simpl in IH; now rewrite IH.
Qed.

Lemma code_points_single s : Forall single_code_point (code_points s).
Proof.
  induction s as [|c rest IH]; [constructor|]. simpl.
  destruct (code_points rest) as [|p ps] eqn:E.
  - constructor; [reflexivity|constructor].
  - inversion IH as [|? ? Hp Hps]; subst.
    destruct rest as [|c' rest']; [discriminate|].
    destruct (code_points_head _ _ _ _ E) as [p' ->].
    simpl starts_with_continuation.
    destruct (is_continuation c') eqn:Hc.
    + constructor; [|exact Hps]. simpl. rewrite Hc. exact Hp.
    + constructor; [reflexivity|]. constructor; assumption.
Qed.

Lemma code_points_open s :
  Forall (fun p => starts_with_continuation p = false) (tl (code_points s)).
Proof.
  induction s as [|c rest IH]; [constructor|]. simpl.
  destruct (code_points rest) as [|p ps] eqn:E; [constructor|].
  destruct rest as [|c' rest']; [discriminate|].
  destruct (code_points_head _ _ _ _ E) as [p' ->].
  simpl starts_with_continuation.
  destruct (is_continuation c') eqn:Hc; simpl.
  - exact IH.
  - constructor; [exact Hc|exact IH].
Qed.

(** X7. The Redis sweep tries, in order, whatever iterating
    [default_passwords] yields, not only the elements of a list.  When
    the passwords are given as one string, the passwords tried are the
    characters of that string, one attempt each: they are pieces that put
    together give the string back, each piece is one byte with its
    continuation bytes, and each piece after the first opens a new
    character.  With libraries that raise only [Exception]s and an entry
    that has [host] and [port] the sweep returns after these attempts. *)
Theorem check_redis_section_tries_every_item d inst passwords items s :
  lib_raises_Exception_only ->
  assoc "redis" d = Some inst ->
  has_key "host" inst = true ->
  has_key "port" inst = true ->
  py_getitem inst "default_passwords" = Return passwords ->
  py_iter passwords = Return items ->
  exists evs,
    fst (check_redis_section (VDict d) s) = Return tt /\
    probe_log (snd (check_redis_section (VDict d) s)) = probe_log s ++ evs /\
    map pe_password evs = items /\
    (forall pw, passwords = VStr pw ->
       exists pieces,
         map pe_password evs = map VStr pieces /\
         join pieces = pw /\
         Forall single_code_point pieces /\
         Forall (fun p => starts_with_continuation p = false) (tl pieces)) /\
    results (snd (check_redis_section (VDict d) s)) =
      results s ++ map finding_of (filter succeeded evs).
Proof.
  intros Hlib Hd Hh Hp Hpw Hi.
  destruct (check_redis_section_iterates d inst passwords items Hlib Hd Hh Hp Hpw Hi s)
    as [Hr (evs & L & E)].
  destruct (check_redis_section_extends (VDict d) s) as (evs' & L' & R' & _).
  rewrite L in L'. apply app_inv_head in L'. subst evs'.
  assert (Hitems : map pe_password evs = items).
  { apply (f_equal (map at_password)) in E. rewrite !map_map in E. simpl in E.
    rewrite map_id in E. exact E. }
  exists evs. repeat split; try assumption.
  intros pw ->. exists (code_points pw). rewrite Hitems.
  simpl in Hi. injection Hi as <-.
  repeat split.
  - apply code_points_join.
  - apply code_points_single.
  - apply code_points_open.
Qed.

(** ** The values of a Finding *)

Lemma event_ok_service ev : event_ok ev -> In (assoc "service" (finding_of ev)) service_values.
Proof.
  unfold event_ok, finding_of, service_values.
  destruct (pe_username ev) as [u|]; intros H.
  - simpl in H.
    destruct H as [<-|[<-|[<-|[<-|[<-|[]]]]]]; vm_compute; auto 10.
  - simpl. auto 10.
Qed.

(** X12. The [service] of every Finding that [run_checks] appends is one of
    [POSTGRESQL], [MYSQL], [MONGODB], [MSSQL], [ORACLE] (the configured
    type name in upper case) and [Redis] (in mixed case); its [host],
    [port] and [password] are the values the probe was invoked with. *)
Theorem run_checks_finding_values config s :
  exists evs,
    probe_log (snd (run_checks config s)) = probe_log s ++ evs /\
    results (snd (run_checks config s)) = results s ++ map finding_of (filter succeeded evs) /\
    forall ev, In ev evs ->
      In (assoc "service" (finding_of ev)) service_values /\
      (pe_service ev <> "redis" ->
       assoc "service" (finding_of ev) = Some (VStr (upper (pe_service ev)))) /\
      assoc "host" (finding_of ev) = Some (pe_host ev) /\
      assoc "port" (finding_of ev) = Some (pe_port ev) /\
      assoc "password" (finding_of ev) = Some (pe_password ev).
Proof.
  destruct (run_checks_extends config s) as (evs & L & R & F).
  exists evs. split; [exact L|]. split; [exact R|].
  intros ev Hev. rewrite Forall_forall in F. destruct (F ev Hev) as [_ Hok].
  split; [apply event_ok_service, Hok|].
  unfold event_ok in Hok. unfold finding_of.
  destruct (pe_username ev) as [u|].
  - repeat split; reflexivity.
  - repeat split; try reflexivity. intros Hne. contradiction.
Qed.

(** ** Keys of an entry that the sweep does not read *)

Lemma assoc_app {A} key (d1 d2 : list (string * A)) :
  assoc key (d1 ++ d2) =
  match assoc key d1 with
  | Some v => Some v
  | None => assoc key d2
  end.
Proof.
  induction d1 as [|[k v] d1 IH]; simpl; [reflexivity|].
  destruct (String.eqb k key); [reflexivity|exact IH].
Qed.

Lemma check_database_same_instance db_type i i' cred s :
  py_getitem (VDict i) "host" = py_getitem (VDict i') "host" ->
  py_getitem (VDict i) "port" = py_getitem (VDict i') "port" ->
  check_database db_type (VDict i) cred s = check_database db_type (VDict i') cred s.
Proof. intros Hh Hp. unfold check_database. rewrite Hh, Hp. reflexivity. Qed.

Lemma check_redis_password_same_instance i i' password s :
  py_getitem (VDict i) "host" = py_getitem (VDict i') "host" ->
  py_getitem (VDict i) "port" = py_getitem (VDict i') "port" ->
  check_redis_password (VDict i) password s = check_redis_password (VDict i') password s.
Proof. intros Hh Hp. unfold check_redis_password. rewrite Hh, Hp. reflexivity. Qed.

Lemma getitem_skip key k v i1 i2 :
  k <> key ->
  py_getitem (VDict (i1 ++ (k, v) :: i2)) key = py_getitem (VDict (i1 ++ i2)) key.
Proof. intros H. unfold py_getitem. now rewrite (assoc_app_skip key k v i1 i2 H). Qed.

Lemma check_db_type_same_instances d d' db_type s :
  (assoc db_type d = assoc db_type d' \/
   exists i1 i2 key v,
     ~ In key instance_keys /\
     assoc db_type d = Some (VDict (i1 ++ (key, v) :: i2)) /\
     assoc db_type d' = Some (VDict (i1 ++ i2))) ->
  check_db_type (VDict d) db_type s = check_db_type (VDict d') db_type s.
Proof.
  intros [H|(i1 & i2 & key & v & Hk & H & H')]; [apply check_db_type_agree, H|].
  assert (Hne : forall k, In k instance_keys -> key <> k).
  { intros k Hin ->. contradiction. }
  unfold check_db_type. rewrite !py_contains_dict, H, H', !bind_lift_Return.
  unfold py_getitem at 1 3. rewrite H, H', !bind_lift_Return.
  rewrite (getitem_skip "default_credentials" key v i1 i2)
    by (apply Hne; unfold instance_keys; in_list).
  destruct (py_getitem (VDict (i1 ++ i2)) "default_credentials") as [creds|e];
    [|reflexivity].
  rewrite !bind_lift_Return.
  destruct (py_iter creds) as [l|e]; [|reflexivity].
  rewrite !bind_lift_Return.
  apply for_each_ext. intros cred s' _.
  apply check_database_same_instance; apply getitem_skip, Hne;
    unfold instance_keys; in_list.
Qed.

Lemma check_redis_section_same_instances d d' s :
  (assoc "redis" d = assoc "redis" d' \/
   exists i1 i2 key v,
     ~ In key instance_keys /\
     assoc "redis" d = Some (VDict (i1 ++ (key, v) :: i2)) /\
     assoc "redis" d' = Some (VDict (i1 ++ i2))) ->
  check_redis_section (VDict d) s = check_redis_section (VDict d') s.
Proof.
  intros [H|(i1 & i2 & key & v & Hk & H & H')]; [apply check_redis_section_agree, H|].
  assert (Hne : forall k, In k instance_keys -> key <> k).
  { intros k Hin ->. contradiction. }
  unfold check_redis_section. rewrite !py_contains_dict, H, H', !bind_lift_Return.
  unfold py_getitem at 1 3. rewrite H, H', !bind_lift_Return.
  rewrite (getitem_skip "default_passwords" key v i1 i2)
    by (apply Hne; unfold instance_keys; in_list).
  destruct (py_getitem (VDict (i1 ++ i2)) "default_passwords") as [pws|e];
    [|reflexivity].
  rewrite !bind_lift_Return.
  destruct (py_iter pws) as [l|e]; [|reflexivity].
  rewrite !bind_lift_Return.
  apply for_each_ext. intros pw s' _.
  apply check_redis_password_same_instance; apply getitem_skip, Hne;
    unfold instance_keys; in_list.
Qed.

(** X14. Of a service entry the sweep reads [host], [port] and the list of
    candidates and nothing else: a further key in the entry (a [database],
    a [username], a [timeout]), wherever it stands, changes nothing in what
    [run_checks] does, returns, probes or records. *)
Theorem run_checks_ignores_other_instance_keys d1 d2 service i1 i2 key v s :
  ~ In key instance_keys ->
  run_checks (VDict (d1 ++ (service, VDict (i1 ++ (key, v) :: i2)) :: d2)) s =
  run_checks (VDict (d1 ++ (service, VDict (i1 ++ i2)) :: d2)) s.
Proof.
  intros Hk.
  assert (H : forall t,
             assoc t (d1 ++ (service, VDict (i1 ++ (key, v) :: i2)) :: d2) =
             assoc t (d1 ++ (service, VDict (i1 ++ i2)) :: d2) \/
             exists j1 j2 k w,
               ~ In k instance_keys /\
               assoc t (d1 ++ (service, VDict (i1 ++ (key, v) :: i2)) :: d2) =
                 Some (VDict (j1 ++ (k, w) :: j2)) /\
               assoc t (d1 ++ (service, VDict (i1 ++ i2)) :: d2) =
                 Some (VDict (j1 ++ j2))).
  { intros t. rewrite !assoc_app. destruct (assoc t d1); [left; reflexivity|].
    simpl. destruct (String.eqb service t); [|left; reflexivity].
    right. exists i1, i2, key, v. auto. }
  unfold run_checks. rewrite !bind_unfold.
  rewrite (for_each_ext database_services
             (check_db_type (VDict (d1 ++ (service, VDict (i1 ++ (key, v) :: i2)) :: d2)))
             (check_db_type (VDict (d1 ++ (service, VDict (i1 ++ i2)) :: d2))) s).
  - destruct (for_each database_services
                (check_db_type (VDict (d1 ++ (service, VDict (i1 ++ i2)) :: d2))) s)
      as [[[]|e] s1]; [|reflexivity].
    rewrite !bind_unfold.
    rewrite (check_redis_section_same_instances _ _ s1 (H "redis")). reflexivity.
  - intros t s' _. apply check_db_type_same_instances, H.
Qed.

(** ** The exceptions of a run *)

Lemma rce_never {A} (c : M A) :
  (forall s, returned (fst (c s)) = true) -> raises_config_errors_only c.
Proof. intros H s e He. specialize (H s). rewrite He in H. discriminate. Qed.

Lemma rce_bind {A B} (c : M A) (k : A -> M B) :
  raises_config_errors_only c -> (forall a, raises_config_errors_only (k a)) ->
  raises_config_errors_only (bind c k).
Proof.
  intros Hc Hk s e. rewrite bind_unfold. specialize (Hc s).
  destruct (c s) as [[a|x] s1]; simpl in *.
  - apply Hk.
  - intros [= <-]. apply Hc. reflexivity.
Qed.

Lemma rce_for_each {A} (l : list A) (body : A -> M unit) :
  (forall x, raises_config_errors_only (body x)) ->
  raises_config_errors_only (for_each l body).
Proof.
  intros H. induction l as [|x l IH]; simpl.
  - apply rce_never. reflexivity.
  - apply rce_bind; [apply H|intros _; exact IH].
Qed.

Lemma rce_getitem v key :
  In key ["host"; "port"; "username"; "password";
          "default_credentials"; "default_passwords"] ->
  raises_config_errors_only (lift (py_getitem v key)).
Proof.
  intros Hk s e. unfold lift, py_getitem. simpl.
  destruct v; try (intros [= <-]; left; reflexivity).
  destruct (assoc key d); [discriminate|].
  intros [= <-]. right. exists key. split; [reflexivity|exact Hk].
Qed.

Lemma rce_iter v : raises_config_errors_only (lift (py_iter v)).
Proof.
  intros s e. unfold lift. simpl.
  destruct v; simpl; try discriminate; intros [= <-]; left; reflexivity.
Qed.

Lemma rce_contains name v : raises_config_errors_only (lift (py_contains name v)).
Proof.
  intros s e. unfold lift. simpl.
  destruct v; simpl; try discriminate; intros [= <-]; left; reflexivity.
Qed.

Lemma rce_config_entry config name :
  forall s e,
    fst (bind (lift (py_contains name config))
           (fun present : bool =>
              if present then lift (py_getitem config name) else lift (Return VNone)) s)
    = Raise e -> e = TypeError.
Proof.
  intros s e. destruct config as [ | b | z | str | l | d].
  - intros [= <-]. reflexivity.
  - intros [= <-]. reflexivity.
  - intros [= <-]. reflexivity.
  - rewrite bind_unfold. unfold lift, py_contains.
    destruct (substring_of name str); [intros [= <-]; reflexivity|discriminate].
  - rewrite bind_unfold. unfold lift, py_contains.
    destruct (existsb (str_eq_value name) l); [intros [= <-]; reflexivity|discriminate].
  - rewrite py_contains_dict, bind_lift_Return. unfold lift, py_getitem.
    destruct (assoc name d); discriminate.
Qed.

Section ConfigErrors.

Hypothesis lib_ok : lib_raises_Exception_only.

Lemma rce_invoke_database db_type method h p u pw :
  assoc db_type check_methods = Some method ->
  raises_config_errors_only (invoke db_type h p (Some u) pw (method h p u pw)).
Proof.
  intros Hm. apply rce_never. intros s. unfold invoke.
  destruct (check_methods_return lib_ok db_type method h p u pw s Hm) as [b Hb].
  destruct (method h p u pw s) as [r s1]. simpl in *. now rewrite Hb.
Qed.

Lemma rce_invoke_redis h p pw :
  raises_config_errors_only (invoke "redis" h p None pw (check_redis h p pw)).
Proof.
  apply rce_never. intros s. unfold invoke.
  destruct (check_redis_collapses lib_ok h p pw s) as (b & _ & Hb & _).
  destruct (check_redis h p pw s) as [r s1]. simpl in *. now rewrite Hb.
Qed.

Ltac rce_steps :=
  repeat first
    [ apply rce_bind; [|intros ?]
    | apply rce_getitem; in_list
    | apply rce_iter
    | apply rce_never; reflexivity ].

Lemma check_database_rce db_type config cred :
  raises_config_errors_only (check_database db_type config cred).
Proof.
  unfold check_database.
  destruct (assoc db_type check_methods) as [method|] eqn:Hm;
    [|apply rce_never; reflexivity].
  do 4 (apply rce_bind; [apply rce_getitem; in_list|intros ?]).
  apply rce_bind; [apply rce_invoke_database, Hm|].
  intros [|]; rce_steps.
Qed.

Lemma check_redis_password_rce inst password :
  raises_config_errors_only (check_redis_password inst password).
Proof.
  unfold check_redis_password.
  do 2 (apply rce_bind; [apply rce_getitem; in_list|intros ?]).
  apply rce_bind; [apply rce_invoke_redis|].
  intros [|]; rce_steps.
Qed.

Lemma check_db_type_rce config db_type :
  raises_config_errors_only (check_db_type config db_type).
Proof.
  intros s e. unfold check_db_type.
  destruct (py_contains db_type config) as [[|]|x] eqn:Ec.
  - rewrite bind_lift_Return.
    destruct (py_getitem config db_type) as [inst|x] eqn:Eg.
    + rewrite bind_lift_Return. revert s e.
      change (raises_config_errors_only
                (bind (lift (py_getitem inst "default_credentials"))
                   (fun creds => bind (lift (py_iter creds))
                      (fun creds0 => for_each creds0 (check_database db_type inst))))).
      apply rce_bind; [apply rce_getitem; in_list|intros creds].
      apply rce_bind; [apply rce_iter|intros l].
      apply rce_for_each. intros cred. apply check_database_rce.
    + rewrite bind_lift_Raise. intros [= <-]. left.
      apply (rce_config_entry config db_type s).
      rewrite Ec, bind_lift_Return, Eg. reflexivity.
  - rewrite bind_lift_Return. discriminate.
  - rewrite bind_lift_Raise. intros [= <-]. left.
    apply (rce_config_entry config db_type s).
    rewrite Ec, bind_lift_Raise. reflexivity.
Qed.

Lemma check_redis_section_rce config :
  raises_config_errors_only (check_redis_section config).
Proof.
  intros s e. unfold check_redis_section.
  destruct (py_contains "redis" config) as [[|]|x] eqn:Ec.
  - rewrite bind_lift_Return.
    destruct (py_getitem config "redis") as [inst|x] eqn:Eg.
    + rewrite bind_lift_Return. revert s e.
      change (raises_config_errors_only
                (bind (lift (py_getitem inst "default_passwords"))
                   (fun creds => bind (lift (py_iter creds))
                      (fun creds0 => for_each creds0 (check_redis_password inst))))).
      apply rce_bind; [apply rce_getitem; in_list|intros creds].
      apply rce_bind; [apply rce_iter|intros l].
      apply rce_for_each. intros cred. apply check_redis_password_rce.
    + rewrite bind_lift_Raise. intros [= <-]. left.
      apply (rce_config_entry config "redis" s).
      rewrite Ec, bind_lift_Return, Eg. reflexivity.
  - rewrite bind_lift_Return. discriminate.
  - rewrite bind_lift_Raise. intros [= <-]. left.
    apply (rce_config_entry config "redis" s).
    rewrite Ec, bind_lift_Raise. reflexivity.
Qed.

Lemma run_checks_rce config : raises_config_errors_only (run_checks config).
Proof.
  unfold run_checks.
  apply rce_bind; [apply rce_for_each; intros t; apply check_db_type_rce|intros _].
  apply rce_bind; [apply check_redis_section_rce|intros _].
  apply rce_never. reflexivity.
Qed.

End ConfigErrors.

(** X15. With client libraries that raise only [Exception]s, the only
    exceptions that escape [run_checks] come from the shape of the
    configuration: [TypeError], or [KeyError] for one of [host], [port],
    [username], [password], [default_credentials], [default_passwords].
    No failure of the network or of a credential ever makes the sweep
    raise. *)
Theorem run_checks_raises_configuration_errors_only config s e :
  lib_raises_Exception_only ->
  fst (run_checks config s) = Raise e ->
  e = TypeError \/
  exists key,
    e = KeyError key /\
    In key ["host"; "port"; "username"; "password";
            "default_credentials"; "default_passwords"].
Proof. intros Hlib. apply (run_checks_rce Hlib config s e). Qed.

(** * Further properties of [main] *)

(** X10. When loading the configuration raises, [main] probes nothing and
    calls no client library: an [Exception] (unreadable file, invalid YAML)
    becomes [SystemExit(1)], anything else passes through unchanged, and
    only the world has moved. *)
Theorem main_load_failure config_path s e w :
  load_yaml config_path (world s) = (Raise e, w) ->
  main config_path s =
  (Raise (if is_Exception e then SystemExit 1 else e),
   mkState (results s) w (probe_log s) (lib_log s)).
Proof.
  intros H.
  unfold main, CredentialChecker, _load_config, try_except_Exception.
  rewrite !bind_unfold, H.
  destruct (is_Exception e); reflexivity.
Qed.

(** X11. When the configuration loads, [main] runs [run_checks] on a new
    checker (an empty [self.results], whatever was there before) and does
    nothing else that can be observed: it ends in the state in which
    [run_checks] ended, returns when [run_checks] returned and raises what
    [run_checks] raised.  The reporting loop never fails on a Finding and
    neither probes nor records. *)
Theorem main_after_load config_path s config w :
  load_yaml config_path (world s) = (Return config, w) ->
  main config_path s =
  (match fst (run_checks config (mkState [] w (probe_log s) (lib_log s))) with
   | Return _ => Return tt
   | Raise e => Raise e
   end,
   snd (run_checks config (mkState [] w (probe_log s) (lib_log s)))).
Proof.
  intros H.
  unfold main, CredentialChecker, _load_config, try_except_Exception.
  rewrite !bind_unfold, H. cbn [results world probe_log lib_log].
  rewrite bind_unfold.
  pose proof (run_checks_fresh_findings config (mkState [] w (probe_log s) (lib_log s)))
    as Hf.
  destruct (run_checks config (mkState [] w (probe_log s) (lib_log s)))
    as [[found|e] s1]; [|reflexivity].
  destruct (Hf eq_refl) as [evs Hevs]. cbn [fst snd] in *.
  rewrite contents_results, Hevs.
  destruct (findings_of evs) eqn:E; [reflexivity|].
  rewrite <- E. apply report_findings.
Qed.

End Checker.

(** * The results on a scripted environment *)

Local Abbreviation run := (run_checks nat stub_lib stub_format).
Local Abbreviation fresh := (fresh_state nat 0%nat).

Lemma stub_lib_raises_Exception_only : lib_raises_Exception_only nat stub_lib.
Proof.
  intros c w e. unfold stub_lib, stub_outcome. cbn [fst].
  destruct c;
    repeat match goal with
    | |- context [if ?b then _ else _] => destruct b
    end;
    intros H; inversion H; reflexivity.
Qed.

Lemma stub_lib_outcomes_fixed : lib_outcomes_fixed nat stub_lib.
Proof. intros c w w'. reflexivity. Qed.

(** The end-to-end scenario: of the two candidates for [db.local:5432]
    only [postgres]/[postgres] is accepted, and it is the one Finding. *)
Example run_db_local :
  fst (run db_local_config fresh) = Return self_results /\
  contents nat self_results (snd (run db_local_config fresh)) =
  [ [ ("service", VStr "POSTGRESQL");
      ("host", VStr "db.local");
      ("port", VInt 5432);
      ("username", VStr "postgres");
      ("password", VStr "postgres") ] ].
Proof. vm_compute. split; reflexivity. Qed.

(** The sweep visits PostgreSQL before MySQL whatever the order of the
    configuration, and Redis last. *)
Example run_two_types :
  map (fun f => assoc "service" f) (results nat (snd (run two_types_config fresh))) =
  [Some (VStr "POSTGRESQL"); Some (VStr "MYSQL"); Some (VStr "Redis")] /\
  map attempt_of (probe_log nat (snd (run two_types_config fresh))) =
  enumerate two_types_config /\
  length (enumerate two_types_config) = 6%nat.
Proof. vm_compute. repeat split. Qed.

(** ** C2 *)

Lemma run_checks_findings_in_enumeration_order_witness :
  fst (run two_types_config fresh) = Return self_results /\
  exists evs,
    probe_log nat (snd (run two_types_config fresh)) = probe_log nat fresh ++ evs /\
    map attempt_of evs = enumerate two_types_config /\
    contents nat self_results (snd (run two_types_config fresh)) =
      results nat fresh ++
      map attempt_finding (select (enumerate two_types_config) (map succeeded evs)).
Proof.
  split; [vm_compute; reflexivity|].
  apply (run_checks_findings_in_enumeration_order nat stub_lib stub_format
           two_types_config fresh).
  vm_compute. reflexivity.
Defined.

(** ** C5 *)

Lemma run_checks_explores_cartesian_product_witness :
  well_formed two_types_config = true /\
  lib_raises_Exception_only nat stub_lib /\
  exists evs,
    fst (run two_types_config fresh) = Return self_results /\
    probe_log nat (snd (run two_types_config fresh)) = probe_log nat fresh ++ evs /\
    map attempt_of evs = enumerate two_types_config /\
    results nat (snd (run two_types_config fresh)) =
      results nat fresh ++ map finding_of (filter succeeded evs) /\
    length (results nat (snd (run two_types_config fresh))) =
      (length (results nat fresh) + length (filter succeeded evs))%nat.
Proof.
  split; [reflexivity|]. split; [exact stub_lib_raises_Exception_only|].
  apply (run_checks_explores_cartesian_product nat stub_lib stub_format
           two_types_config fresh).
  - reflexivity.
  - exact stub_lib_raises_Exception_only.
Defined.

(** ** C3 *)

(** As stated, C3 fails twice over: with a MySQL instance without [host]
    after a well-formed PostgreSQL instance, the PostgreSQL probe has been
    invoked when the run raises; and an instance without [host] and without
    candidates does not make the run raise at all. *)
Lemma fails_before_probing_counterexample :
  (missing_connection_field mysql_without_host_config /\
   ~ fails_before_probing nat stub_lib stub_format mysql_without_host_config fresh) /\
  (missing_connection_field no_candidates_config /\
   ~ fails_before_probing nat stub_lib stub_format no_candidates_config fresh).
Proof.
  split; split.
  - exists "mysql", (field "mysql" mysql_without_host_config).
    split; [unfold sweep_order; in_list|]. split; [reflexivity|left; reflexivity].
  - intros [_ H]. vm_compute in H. discriminate H.
  - exists "postgresql", (field "postgresql" no_candidates_config).
    split; [unfold sweep_order; in_list|]. split; [reflexivity|left; reflexivity].
  - intros [H _]. vm_compute in H. discriminate H.
Qed.

Example run_mysql_without_host :
  fst (run mysql_without_host_config fresh) = Raise (KeyError "host") /\
  map attempt_of (probe_log nat (snd (run mysql_without_host_config fresh))) =
  [mkAttempt "postgresql" (VStr "db.local") (VInt 5432)
     (Some (VStr "postgres")) (VStr "postgres")].
Proof. vm_compute. split; reflexivity. Qed.

Lemma run_checks_missing_field_raises_witness :
  (run mysql_without_host_config fresh =
     (Raise (KeyError "host"),
      snd (for_each nat ["postgresql"]
             (visit nat stub_lib stub_format mysql_without_host_config) fresh)) /\
   exists evs,
     probe_log nat (snd (run mysql_without_host_config fresh)) = probe_log nat fresh ++ evs /\
     Forall (fun ev => In (pe_service ev) ["postgresql"]) evs) /\
  (run postgres_without_host_config fresh = (Raise (KeyError "host"), fresh) /\
   exists evs,
     probe_log nat (snd (run postgres_without_host_config fresh)) =
       probe_log nat fresh ++ evs /\
     Forall (fun ev => In (pe_service ev) []) evs).
Proof.
  split.
  - assert (H : In "mysql" sweep_order) by (unfold sweep_order; in_list).
    exact (run_checks_missing_field_raises nat stub_lib stub_format
             mysql_without_host_config "mysql"
             (field "mysql" mysql_without_host_config)
             (VList [credential "root" "root"]) (credential "root" "root") [] fresh
             H eq_refl (or_introl eq_refl) eq_refl eq_refl).
  - assert (H : In "postgresql" sweep_order) by (unfold sweep_order; in_list).
    exact (run_checks_missing_field_raises nat stub_lib stub_format
             postgres_without_host_config "postgresql"
             (field "postgresql" postgres_without_host_config)
             (VList [credential "postgres" "postgres"])
             (credential "postgres" "postgres") [] fresh
             H eq_refl (or_introl eq_refl) eq_refl eq_refl).
Defined.

(** ** C4 *)

Lemma unsupported_service_type_is_skipped_witness :
  ~ In "postgres" sweep_order /\
  well_formed typo_config = true /\
  lib_raises_Exception_only nat stub_lib /\
  check_database nat stub_lib stub_format "postgres"
    (VDict [("host", VStr "10.0.0.9")]) (credential "postgres" "postgres") fresh
  = (Return tt, fresh) /\
  run typo_config fresh = run two_types_config fresh /\
  exists evs,
    fst (run typo_config fresh) = Return self_results /\
    probe_log nat (snd (run typo_config fresh)) = probe_log nat fresh ++ evs /\
    map attempt_of evs = enumerate typo_config /\
    results nat (snd (run typo_config fresh)) =
      results nat fresh ++ map finding_of (filter succeeded evs) /\
    forall db_type inst candidate,
      In db_type database_services ->
      assoc db_type (match typo_config with VDict d => d | _ => [] end) = Some inst ->
      In candidate (candidates "default_credentials" inst) ->
      exists ev,
        In ev evs /\
        attempt_of ev =
          mkAttempt db_type (field "host" inst) (field "port" inst)
            (Some (field "username" candidate)) (field "password" candidate) /\
        (pe_outcome ev = Return true ->
         In (finding_of ev) (results nat (snd (run typo_config fresh)))).
Proof.
  assert (H : ~ In "postgres" sweep_order).
  { intros [H|[H|[H|[H|[H|[H|[]]]]]]]; discriminate H. }
  destruct (unsupported_service_type_is_skipped nat stub_lib stub_format
              "postgres" (VDict [("host", VStr "10.0.0.9")]) []
              (match two_types_config with VDict d => d | _ => [] end)
              (VDict [("host", VStr "10.0.0.9")]) (credential "postgres" "postgres")
              fresh H) as (Hskip & Hsame & Hprobed).
  split; [exact H|].
  split; [reflexivity|].
  split; [exact stub_lib_raises_Exception_only|].
  split; [exact Hskip|].
  split; [exact Hsame|].
  exact (Hprobed eq_refl stub_lib_raises_Exception_only).
Defined.

(** The entry under the mistyped name is skipped; the three supported
    entries are probed, six attempts in all, and give three Findings. *)
Example run_typo_config :
  length (probe_log nat (snd (run typo_config fresh))) = 6%nat /\
  map (fun f => assoc "service" f) (results nat (snd (run typo_config fresh))) =
  [Some (VStr "POSTGRESQL"); Some (VStr "MYSQL"); Some (VStr "Redis")].
Proof. vm_compute. split; reflexivity. Qed.

(** ** C6 *)

Lemma probes_collapse_failures_witness :
  lib_raises_Exception_only nat stub_lib /\
  collapses_failures nat
    (check_postgres nat stub_lib (VStr "db.local") (VInt 5432) (VStr "admin") (VStr "admin")) /\
  collapses_failures nat
    (check_mysql nat stub_lib (VStr "db.local") (VInt 5432) (VStr "admin") (VStr "admin")) /\
  collapses_failures nat
    (check_mongodb nat stub_lib stub_format (VStr "db.local") (VInt 5432)
       (VStr "admin") (VStr "admin")) /\
  collapses_failures nat
    (check_mssql nat stub_lib (VStr "db.local") (VInt 5432) (VStr "admin") (VStr "admin")) /\
  collapses_failures nat
    (check_oracle nat stub_lib stub_format (VStr "db.local") (VInt 5432)
       (VStr "admin") (VStr "admin")) /\
  collapses_failures nat
    (check_redis nat stub_lib (VStr "db.local") (VInt 5432) (VStr "admin")).
Proof.
  split; [exact stub_lib_raises_Exception_only|].
  exact (probes_collapse_failures nat stub_lib stub_format
           (VStr "db.local") (VInt 5432) (VStr "admin") (VStr "admin")
           stub_lib_raises_Exception_only).
Defined.

Example check_postgres_rejected_is_False :
  fst (check_postgres nat stub_lib (VStr "db.local") (VInt 5432)
         (VStr "admin") (VStr "admin") fresh) = Return false.
Proof. reflexivity. Qed.

(** ** C7 *)

(** A configuration that loads, and a run that ends with status 1. *)
Lemma exit_nonzero_only_on_load_failure_counterexample :
  ~ exit_nonzero_only_on_load_failure nat stub_lib
      (stub_load postgres_without_host_config) stub_format "config.yaml" fresh.
Proof.
  unfold exit_nonzero_only_on_load_failure. intros H.
  assert (E : exit_status
                (fst (main nat stub_lib (stub_load postgres_without_host_config)
                        stub_format "config.yaml" fresh)) = 1%Z)
    by (vm_compute; reflexivity).
  rewrite E in H. specialize (H ltac:(discriminate)).
  vm_compute in H. discriminate H.
Qed.

Example main_exit_status_samples :
  exit_status (fst (main nat stub_lib (stub_load db_local_config) stub_format
                      "config.yaml" fresh)) = 0%Z /\
  exit_status (fst (main nat stub_lib (stub_load (VDict [])) stub_format
                      "config.yaml" fresh)) = 0%Z /\
  exit_status (fst (main nat stub_lib (fun _ w => (Raise OSError, w)) stub_format
                      "config.yaml" fresh)) = 1%Z /\
  exit_status (fst (main nat stub_lib (stub_load VNone) stub_format
                      "config.yaml" fresh)) = 1%Z.
Proof. vm_compute. repeat split. Qed.

(** ** C8 *)

(** With fixed outcomes, the list returned by a second run on the same
    checker does not hold what the list returned by the first run held. *)
Lemma second_run_returns_the_same_counterexample :
  lib_outcomes_fixed nat stub_lib /\
  ~ second_run_returns_the_same nat stub_lib stub_format db_local_config fresh.
Proof.
  split; [exact stub_lib_outcomes_fixed|].
  unfold second_run_returns_the_same. intros H.
  specialize (H self_results self_results eq_refl eq_refl).
  vm_compute in H. discriminate H.
Qed.

Example second_run_doubles :
  map (fun f => assoc "username" f)
    (contents nat self_results (snd (run db_local_config fresh))) =
  [Some (VStr "postgres")] /\
  map (fun f => assoc "username" f)
    (contents nat self_results
       (snd (run db_local_config (snd (run db_local_config fresh))))) =
  [Some (VStr "postgres"); Some (VStr "postgres")].
Proof. vm_compute. split; reflexivity. Qed.

Lemma run_checks_repeatable_from_fresh_checker_witness :
  lib_outcomes_fixed nat stub_lib /\
  (fst (run db_local_config fresh) = fst (run db_local_config (fresh_state nat 7%nat)) /\
   forall r1 r2,
     fst (run db_local_config fresh) = Return r1 ->
     fst (run db_local_config (fresh_state nat 7%nat)) = Return r2 ->
     contents nat r1 (snd (run db_local_config fresh)) =
     contents nat r2 (snd (run db_local_config (fresh_state nat 7%nat)))) /\
  (forall r1,
     fst (run db_local_config fresh) = Return r1 ->
     fst (run db_local_config (snd (run db_local_config fresh))) = Return r1 /\
     contents nat r1 (snd (run db_local_config (snd (run db_local_config fresh)))) =
       contents nat r1 (snd (run db_local_config fresh)) ++
       contents nat r1 (snd (run db_local_config fresh))).
Proof.
  split; [exact stub_lib_outcomes_fixed|].
  apply (run_checks_repeatable_from_fresh_checker nat stub_lib stub_format
           db_local_config fresh (fresh_state nat 7%nat)).
  - exact stub_lib_outcomes_fixed.
  - reflexivity.
  - reflexivity.
Defined.

(** ** C9 *)

Lemma check_redis_password_only_witness :
  (forall host port password s',
     exists calls,
       lib_log nat (snd (check_redis nat stub_lib host port password s')) =
         lib_log nat s' ++ calls /\
       ((exists e, calls = [(RedisInit host port password 3, Raise e)]) \/
        (exists r o, calls = [(RedisInit host port password 3, Return r); (RedisPing r, o)])) /\
       (fst (check_redis nat stub_lib host port password s') = Return true <->
        exists r r', calls = [(RedisInit host port password 3, Return r);
                              (RedisPing r, Return r')])) /\
  exists evs,
    fst (check_redis_section nat stub_lib two_types_config fresh) = Return tt /\
    probe_log nat (snd (check_redis_section nat stub_lib two_types_config fresh)) =
      probe_log nat fresh ++ evs /\
    map attempt_of evs =
      map (fun password => mkAttempt "redis" (VStr "10.0.0.3") (VInt 6379) None password)
        [VStr "redis"; VStr "123456"] /\
    results nat (snd (check_redis_section nat stub_lib two_types_config fresh)) =
      results nat fresh ++ map finding_of (filter succeeded evs).
Proof.
  apply (check_redis_password_only nat stub_lib
           (match two_types_config with VDict d => d | _ => [] end)
           (field "redis" two_types_config)
           [VStr "redis"; VStr "123456"] fresh).
  - exact stub_lib_raises_Exception_only.
  - reflexivity.
  - reflexivity.
  - reflexivity.
  - reflexivity.
Defined.

Example redis_sweep_records_password_only :
  results nat (snd (check_redis_section nat stub_lib two_types_config fresh)) =
  [ [ ("service", VStr "Redis");
      ("host", VStr "10.0.0.3");
      ("port", VInt 6379);
      ("password", VStr "redis") ] ].
Proof. vm_compute. reflexivity. Qed.

(** * The further properties on the scripted environment *)

(** ** X3 *)

Lemma check_database_bad_candidate_witness :
  check_database nat stub_lib stub_format "mysql"
    (VDict [("host", VStr "10.0.0.2"); ("port", VInt 3306)])
    (VDict [("username", VStr "root")]) fresh
  = (Raise (KeyError "password"), fresh).
Proof.
  apply (check_database_bad_candidate nat stub_lib stub_format "mysql"
           (VDict [("host", VStr "10.0.0.2"); ("port", VInt 3306)])
           (VDict [("username", VStr "root")]) fresh).
  - unfold database_services. in_list.
  - reflexivity.
  - reflexivity.
  - reflexivity.
Defined.

(** ** X6 *)

Lemma run_checks_config_not_a_dict_witness :
  run (VList [VStr "mysql"; VStr "postgresql"]) fresh = (Raise TypeError, fresh) /\
  run (VList [VStr "hosts"]) fresh = (Return self_results, fresh).
Proof.
  split.
  - apply (run_checks_config_not_a_dict nat stub_lib stub_format
             (VList [VStr "mysql"; VStr "postgresql"]) fresh).
    intros d H. discriminate H.
  - apply (run_checks_config_not_a_dict nat stub_lib stub_format
             (VList [VStr "hosts"]) fresh).
    intros d H. discriminate H.
Defined.

(** ** X7 *)

Lemma check_redis_section_tries_every_item_witness :
  exists evs,
    fst (check_redis_section nat stub_lib redis_string_config fresh) = Return tt /\
    probe_log nat (snd (check_redis_section nat stub_lib redis_string_config fresh)) =
      probe_log nat fresh ++ evs /\
    map pe_password evs = [VStr "a"; VStr "b"; VStr "c"] /\
    (forall pw, VStr "abc" = VStr pw ->
       exists pieces,
         map pe_password evs = map VStr pieces /\
         join pieces = pw /\
         Forall single_code_point pieces /\
         Forall (fun p => starts_with_continuation p = false) (tl pieces)) /\
    results nat (snd (check_redis_section nat stub_lib redis_string_config fresh)) =
      results nat fresh ++ map finding_of (filter succeeded evs).
Proof.
  apply (check_redis_section_tries_every_item nat stub_lib
           (match redis_string_config with VDict d => d | _ => [] end)
           (field "redis" redis_string_config)
           (VStr "abc") [VStr "a"; VStr "b"; VStr "c"] fresh).
  - exact stub_lib_raises_Exception_only.
  - reflexivity.
  - reflexivity.
  - reflexivity.
  - reflexivity.
  - reflexivity.
Defined.

(** A character of two bytes is one item, hence one attempt. *)
Example py_iter_two_byte_character :
  py_iter (VStr (String (ascii_of_nat 195) (String (ascii_of_nat 169) "x"))) =
  Return [ VStr (String (ascii_of_nat 195) (String (ascii_of_nat 169) EmptyString));
           VStr "x" ].
Proof. reflexivity. Qed.

(** ** X10 and X11 *)

Lemma main_load_failure_witness :
  main nat stub_lib (fun _ w => (Raise YAMLError, w)) stub_format "config.yaml" fresh =
  (Raise (SystemExit 1), fresh).
Proof.
  apply (main_load_failure nat stub_lib (fun _ w => (Raise YAMLError, w)) stub_format
           "config.yaml" fresh YAMLError 0%nat).
  reflexivity.
Defined.

Lemma main_after_load_witness :
  main nat stub_lib (stub_load db_local_config) stub_format "config.yaml"
    (mkState nat [[("service", VStr "stale")]] 0%nat [] []) =
  (match fst (run db_local_config fresh) with
   | Return _ => Return tt
   | Raise e => Raise e
   end,
   snd (run db_local_config fresh)).
Proof.
  apply (main_after_load nat stub_lib (stub_load db_local_config) stub_format
           "config.yaml" (mkState nat [[("service", VStr "stale")]] 0%nat [] [])
           db_local_config 0%nat).
  reflexivity.
Defined.

(** ** X13 *)

(** An interrupted library: the first probe raises and is the only one. *)
Example run_interrupted :
  fst (run_checks nat interrupted_lib stub_format two_types_config fresh) =
    Raise (SystemExit 130) /\
  map attempt_of
    (probe_log nat (snd (run_checks nat interrupted_lib stub_format two_types_config fresh))) =
  [mkAttempt "postgresql" (VStr "10.0.0.1") (VInt 5432)
     (Some (VStr "postgres")) (VStr "postgres")].
Proof. vm_compute. split; reflexivity. Qed.

(** ** X14 *)

Lemma run_checks_ignores_other_instance_keys_witness :
  ~ In "database" instance_keys /\
  run extra_key_config fresh = run two_types_config fresh.
Proof.
  assert (H : ~ In "database" instance_keys).
  { intros [H|[H|[H|[H|[]]]]]; discriminate H. }
  split; [exact H|].
  exact (run_checks_ignores_other_instance_keys nat stub_lib stub_format
           [("mysql",
             VDict [ ("host", VStr "10.0.0.2");
                     ("port", VInt 3306);
                     ("default_credentials",
                      VList [credential "root" "root"; credential "root" "toor"]) ])]
           [("redis",
             VDict [ ("host", VStr "10.0.0.3");
                     ("port", VInt 6379);
                     ("default_passwords", VList [VStr "redis"; VStr "123456"]) ])]
           "postgresql"
           [("host", VStr "10.0.0.1")]
           [ ("port", VInt 5432);
             ("default_credentials",
              VList [credential "postgres" "postgres"; credential "admin" "admin"]) ]
           "database" (VStr "inventory") fresh H).
Defined.

(** ** X15 *)

Lemma run_checks_raises_configuration_errors_only_witness :
  KeyError "host" = TypeError \/
  exists key,
    KeyError "host" = KeyError key /\
    In key ["host"; "port"; "username"; "password";
            "default_credentials"; "default_passwords"].
Proof.
  apply (run_checks_raises_configuration_errors_only nat stub_lib stub_format
           mysql_without_host_config fresh (KeyError "host")).
  - exact stub_lib_raises_Exception_only.
  - vm_compute. reflexivity.
Defined.
